(** * Recursive book summarizer: a shallow embedding of [summarize.py]

    The development follows the script's core: the retry loop around the
    chat-completion request ([gpt_summarize]), the token budget
    ([summarization_token_parameters]), the memoized three-way recursion
    ([summarize]), the final merge ([synthesize_summaries]) and the driver
    at the end of the script, which loops over the target sizes, removes
    the markers with [str.replace] and asks for the merge.

    Python values are modelled as follows: [int] is [Z] (counters that only
    grow from zero are [nat]), [float] is the kernel's binary64 [float],
    [str] is [string], a list is a [list], the memoization store is a finite
    map, and an exception is a value of [PyExn] returned in place of a
    result.  Everything the script reaches outside of itself (the tokenizer,
    the provider, the random generator, the helpers imported from
    [utilities]) is a field of the environment [Env]; the effects the script
    has on the process are fields of [World].  Console output is not part of
    the model.

    [summarize] calls itself, and nothing in the script bounds the nesting
    of these calls: the embedding gives it a depth and returns [None] when
    the depth is used up, so that "the call finishes" is the statement that
    some depth is enough.  The loop of [gpt_summarize] is total as it
    stands.

    The module [utilities] of the script (the memoization decorator, the
    section splitter, the prompt template and the message token count) is
    not among the sources.  The decorator and the splitter are modelled
    from the specification, in the module [Utilities]; the prompt template
    and the token counts are fields of [Env]. *)

From Stdlib Require Import ZArith String Ascii List Lia PrimFloat Uint63.
From stdpp Require Import base option gmap strings list pretty.
From Equations Require Import Equations.

Local Open Scope string_scope.
Local Open Scope Z_scope.

(** ** Data model *)

(** [@dataclass(frozen=True, repr=True) class SummarizationParameters]. *)
Record SummarizationParameters := mkParams {
  target_summary_size : Z;
  summary_input_size : Z
}.

(** A chat message [{"role": ..., "content": ...}]. *)
Record Message := mkMessage {
  role : string;
  body : string
}.

(** The exception classes the script distinguishes.  The three provider
    classes are the ones named by the [except] clause of [gpt_summarize];
    [OtherException] is any class outside that tuple. *)
Inductive ExnClass :=
  | APIConnectionError
  | APIError
  | RateLimitError
  | AssertionError
  | OtherException.

(** A raised exception: its class, and its [should_retry] attribute when the
    object has one ([None] is [hasattr(e, "should_retry") == False]). *)
Record PyExn := mkExn {
  exn_class : ExnClass;
  should_retry : option bool
}.

(** What the provider's answer exposes to the script:
    [result.choices[0].message.content] and [result.usage.total_tokens]. *)
Record ChatCompletion := mkCompletion {
  content : string;
  total_tokens : Z
}.

Inductive ApiOutcome :=
  | Completed (r : ChatCompletion)
  | Failed (e : PyExn).

(** The result of running a piece of the script. *)
Inductive Outcome (A : Type) :=
  | Returned (a : A)
  | Raised (e : PyExn).
Arguments Returned {A} a.
Arguments Raised {A} e.

(** Keys of the memoization store: the decorated function together with its
    arguments. *)
Inductive CacheKey :=
  | SummarizeKey (text : string) (token_quantities : SummarizationParameters)
                 (division_point model_name : string)
  | SynthesizeKey (summaries : list string) (model : string).

Global Instance SummarizationParameters_eq_dec : EqDecision SummarizationParameters.
Proof. solve_decision. Defined.

Global Instance CacheKey_eq_dec : EqDecision CacheKey.
Proof. solve_decision. Defined.

Definition CacheKey_to_sum (k : CacheKey)
  : (string * (Z * Z) * string * string) + (list string * string) :=
  match k with
  | SummarizeKey t p d m => inl (t, (target_summary_size p, summary_input_size p), d, m)
  | SynthesizeKey l m => inr (l, m)
  end.

Definition CacheKey_of_sum
  (s : (string * (Z * Z) * string * string) + (list string * string)) : CacheKey :=
  match s with
  | inl (t, (a, b), d, m) => SummarizeKey t (mkParams a b) d m
  | inr (l, m) => SynthesizeKey l m
  end.

Global Instance CacheKey_countable : Countable CacheKey.
Proof.
  apply (inj_countable' CacheKey_to_sum CacheKey_of_sum).
  intros [t [a b] d m | l m]; reflexivity.
Defined.

(** ** The environment and the world *)

(** Everything the script calls but does not define. *)
Record Env := mkEnv {
  (** [enc.encode], the tokenizer of [model_name]. *)
  enc_encode : string -> list Z;
  (** [utilities.num_tokens_from_messages(messages, model)]. *)
  num_tokens_from_messages : list Message -> string -> Z;
  (** [utilities.summarization_prompt_messages(text, target_summary_size)]. *)
  summarization_prompt_messages : string -> Z -> list Message;
  (** [utilities.split_text_into_sections(text, max_tokens, division_point, model)]. *)
  splitter : string -> Z -> string -> string -> list string;
  (** [openai.chat.completions.create(model, messages)]: the answer to the
      request sent when [n] requests have been sent before. *)
  chat_completions_create : nat -> string -> list Message -> ApiOutcome;
  (** [random.random()]: the value of the draw made after [n] earlier draws. *)
  random_random : nat -> float
}.

(** The state the script reads and writes. *)
Record World := mkWorld {
  (** the module global [actual_tokens] *)
  actual_tokens : Z;
  (** the store behind [memoize_to_file(cache_file="cache.json")] *)
  cache_json : gmap CacheKey string;
  (** number of requests sent to the provider *)
  api_calls : nat;
  (** number of draws taken from [random.random()] *)
  random_draws : nat;
  (** arguments of [time.sleep], latest first *)
  slept : list float
}.

Definition count_call (w : World) : World :=
  mkWorld (actual_tokens w) (cache_json w) (S (api_calls w)) (random_draws w) (slept w).

Definition add_tokens (n : Z) (w : World) : World :=
  mkWorld (actual_tokens w + n) (cache_json w) (api_calls w) (random_draws w) (slept w).

Definition count_draw (w : World) : World :=
  mkWorld (actual_tokens w) (cache_json w) (api_calls w) (S (random_draws w)) (slept w).

Definition time_sleep (d : float) (w : World) : World :=
  mkWorld (actual_tokens w) (cache_json w) (api_calls w) (random_draws w) (d :: slept w).

Definition cache_put (k : CacheKey) (v : string) (w : World) : World :=
  mkWorld (actual_tokens w) (<[k := v]> (cache_json w)) (api_calls w) (random_draws w) (slept w).

Definition initial_world : World := mkWorld 0 ∅ 0 0 [].

(** ** Constants of the script *)

Definition MAX_ATTEMPTS : nat := 3.
Definition model_name : string := "gpt-3.5-turbo-1106".
Definition newline : string := String "010" EmptyString.

(** [len(x)] of a Python list. *)
Definition len {A} (l : list A) : Z := Z.of_nat (length l).

(** An [int] used in float arithmetic is converted to the float of the same
    value. *)
Definition float_of_nat (n : nat) : float := PrimFloat.of_uint63 (Uint63.of_Z (Z.of_nat n)).

(** ** [str.strip()] *)

(** The whitespace characters of the ASCII range. *)
Definition is_space (c : ascii) : bool :=
  let n := nat_of_ascii c in
  ((9 <=? n) && (n <=? 13) || (28 <=? n) && (n <=? 32))%nat.

Fixpoint lstrip (s : string) : string :=
  match s with
  | String c s' => if is_space c then lstrip s' else s
  | EmptyString => EmptyString
  end.

Fixpoint rstrip (s : string) : string :=
  match s with
  | String c s' =>
      match rstrip s' with
      | EmptyString => if is_space c then EmptyString else String c EmptyString
      | r => String c r
      end
  | EmptyString => EmptyString
  end.

Definition strip (s : string) : string := rstrip (lstrip s).

(** ** [gpt_summarize] *)

(** [except (openai.APIConnectionError, openai.APIError, openai.RateLimitError)]. *)
Definition caught (e : PyExn) : bool :=
  match exn_class e with
  | APIConnectionError | APIError | RateLimitError => true
  | AssertionError | OtherException => false
  end.

(** [hasattr(e, "should_retry") and not e.should_retry]. *)
Definition flagged_no_retry (e : PyExn) : bool :=
  match should_retry e with
  | Some b => negb b
  | None => false
  end.

(** [random.random() * 4.0 + 1.0]. *)
Definition random_wait (u : float) : float := (u * 4.0 + 1.0)%float.

(** The argument of [time.sleep] on the failed attempt number [tries]: the
    script first rebinds [random_wait = random_wait * tries] and then sleeps
    for [random_wait * tries]. *)
Definition sleep_duration (u : float) (tries : nat) : float :=
  ((random_wait u * float_of_nat tries) * float_of_nat tries)%float.

(** The world after the backoff of failed attempt [tries]: one draw, one sleep. *)
Definition back_off (E : Env) (tries : nat) (w : World) : World :=
  time_sleep (sleep_duration (random_random E (random_draws w)) tries) (count_draw w).

(** ** Running the script

    A computation reads and writes the world and either returns, raises, or
    has not finished within the recursion depth it was given ([None]). *)

Definition Run (A : Type) : Type := World -> option (Outcome A * World).

Definition ret {A} (a : A) : Run A := fun w => Some (Returned a, w).

Definition bind {A B} (m : Run A) (k : A -> Run B) : Run B :=
  fun w =>
    match m w with
    | Some (Returned a, w') => k a w'
    | Some (Raised e, w') => Some (Raised e, w')
    | None => None
    end.

Notation "'let*' x ':=' m 'in' k" := (bind m (fun x => k))
  (at level 10, x name, m at level 100, k at level 200).

(** A computation that always finishes. *)
Definition total {A} (f : World -> Outcome A * World) : Run A :=
  fun w => Some (f w).

(** A list comprehension [[f(x) for x in l]]: the elements are processed in
    order, and the first exception ends the comprehension. *)
Fixpoint for_each {A B} (f : A -> Run B) (l : list A) : Run (list B) :=
  match l with
  | [] => ret []
  | x :: l' =>
      let* y := f x in
      let* ys := for_each f l' in
      ret (y :: ys)
  end.

(** A computation diverges when no recursion depth lets it finish. *)
Definition diverges {A} (run : nat -> Run A) (w : World) : Prop :=
  forall fuel, run fuel w = None.

(** ** The helpers imported from [utilities] *)

Module Utilities.

(** Modelled from the spec: the decorator [memoize_to_file] of the module
    [utilities], which is not among the source files.  The store maps the
    call (function and arguments) to the text it returned; it is looked up
    before the decorated body runs, and it is written only when the body
    returns. *)
Definition memoize_to_file (key : CacheKey) (f : Run string) : Run string :=
  fun w =>
    match cache_json w !! key with
    | Some v => Some (Returned v, w)
    | None =>
        match f w with
        | Some (Returned v, w') => Some (Returned v, cache_put key v w')
        | Some (Raised e, w') => Some (Raised e, w')
        | None => None
        end
    end.

(** The first [n] characters of [s], and what follows them. *)
Fixpoint take (n : nat) (s : string) : string :=
  match n, s with
  | S n', String c s' => String c (take n' s')
  | _, _ => EmptyString
  end.

Fixpoint drop (n : nat) (s : string) : string :=
  match n, s with
  | S n', String _ s' => drop n' s'
  | _, _ => s
  end.

(** [s.endswith(suffix)]. *)
Definition ends_with (suffix s : string) : bool :=
  String.eqb (drop (String.length s - String.length suffix) s) suffix
  && (String.length suffix <=? String.length s)%nat.

(** The largest position in [1..n] that satisfies [ok]. *)
Fixpoint last_position (ok : nat -> bool) (n : nat) : option nat :=
  match n with
  | O => None
  | S n' => if ok n then Some n else last_position ok n'
  end.

Section Splitter.

(** [tiktoken.encoding_for_model(model).encode]. *)
Context (encoding_for_model : string -> string -> list Z).
Context (max_tokens : Z) (division_point model : string).

Definition fits (rest : string) (p : nat) : bool :=
  len (encoding_for_model model (take p rest)) <=? max_tokens.

Definition at_boundary (rest : string) (p : nat) : bool :=
  negb (String.eqb division_point EmptyString)
  && ends_with division_point (take p rest).

(** Modelled from the spec: where the next section of an oversized [rest]
    ends.  A split occurs right after an occurrence of the boundary, the
    last one that keeps the section within the budget; when no boundary
    occurs within the budget the splitter falls back to a hard cut at the
    last position within the budget; and it still makes progress, by one
    character, when even a single character exceeds the budget. *)
Definition cut_point (rest : string) : nat :=
  match last_position (fun p => fits rest p && at_boundary rest p) (String.length rest) with
  | Some p => p
  | None =>
      match last_position (fits rest) (String.length rest) with
      | Some p => p
      | None => 1%nat
      end
  end.

(** Modelled from the spec: the sections of [rest], in order.  What fits
    the budget is one section; otherwise the part before the cut point is
    a section and the splitter goes on with what follows it. *)
Fixpoint split_loop (steps : nat) (rest : string) : list string :=
  match steps with
  | O => []
  | S steps' =>
      if String.eqb rest EmptyString then []
      else if len (encoding_for_model model rest) <=? max_tokens then [rest]
      else take (cut_point rest) rest :: split_loop steps' (drop (cut_point rest) rest)
  end.

End Splitter.

(** Modelled from the spec: the section splitter [split_text_into_sections]
    of the module [utilities], which is not among the source files.  The
    text is cut into contiguous sections; a section ends right after an
    occurrence of the boundary whenever one lies within the token budget,
    and at the budget otherwise.  Every step removes at least one character,
    so a number of steps equal to the length of the text is never used up. *)
Definition split_text_into_sections (encoding_for_model : string -> string -> list Z)
    (text : string) (max_tokens : Z) (division_point model : string) : list string :=
  split_loop encoding_for_model max_tokens division_point model (String.length text) text.

End Utilities.

(** ** The script *)

Section Script.

Context (E : Env).

(** The [while True] loop of [gpt_summarize], entered with [tries] attempts
    already made.  It terminates because a further iteration is only started
    while [tries + 1 < MAX_ATTEMPTS].  The request names its model by the
    literal ["gpt-3.5-turbo-1106"], the value of [model_name]. *)
Equations? gpt_summarize_loop (tries : nat) (text : string) (target : Z) (w : World)
  : Outcome string * World by wf (MAX_ATTEMPTS - tries)%nat lt :=
gpt_summarize_loop tries text target w
    with chat_completions_create E (api_calls w) model_name
           (summarization_prompt_messages E text target) := {
  | Completed r =>
      (Returned ("[[[" +:+ content r +:+ "]]]"),
       add_tokens (total_tokens r) (count_call w));
  | Failed e with caught e := {
    | false => (Raised e, count_call w);
    | true with decide (MAX_ATTEMPTS <= S tries)%nat := {
      | left _ => (Raised e, count_call w);
      | right _ with flagged_no_retry e := {
        | true => (Raised e, count_call w);
        | false =>
            gpt_summarize_loop (S tries) text target
              (back_off E (S tries) (count_call w)) } } } }.
Proof. all: unfold MAX_ATTEMPTS in *; lia. Qed.

Definition gpt_summarize (text : string) (target : Z) (w : World)
  : Outcome string * World :=
  gpt_summarize_loop 0 text target w.

(** [summarization_token_parameters]: the budget of one summarization call.
    The body has no [raise] and no check on the difference. *)
Definition summarization_token_parameters (target_summary_size model_context_size : Z)
  : Outcome SummarizationParameters :=
  let base_prompt_size :=
    num_tokens_from_messages E
      (summarization_prompt_messages E EmptyString target_summary_size) model_name in
  let summary_input_size := model_context_size - (base_prompt_size + target_summary_size) in
  Returned (mkParams target_summary_size summary_input_size).

(** [len(enc.encode(text))]. *)
Definition token_count (text : string) : Z := len (enc_encode E text).

(** The body of [summarize], with its recursive calls going to [self], the
    decorated function. *)
Definition summarize_body (self : string -> SummarizationParameters -> string -> string -> Run string)
    (text : string) (token_quantities : SummarizationParameters)
    (division_point model_name : string) : Run string :=
  if token_count text <=? target_summary_size token_quantities then
    ret text
  else if token_count text <=? summary_input_size token_quantities then
    let* summary := total (gpt_summarize text (target_summary_size token_quantities)) in
    ret summary
  else
    let split_input :=
      splitter E text (summary_input_size token_quantities) division_point model_name in
    let* summaries :=
      for_each (fun x => self x token_quantities division_point model_name) split_input in
    self (String.concat (newline +:+ newline) summaries)
         token_quantities division_point model_name.

(** [summarize], decorated with [memoize_to_file(cache_file="cache.json")].
    [depth] bounds the nesting of calls to the decorated function. *)
Fixpoint summarize (depth : nat) (text : string) (token_quantities : SummarizationParameters)
    (division_point model_name : string) : Run string :=
  match depth with
  | O => fun _ => None
  | S depth' =>
      Utilities.memoize_to_file
        (SummarizeKey text token_quantities division_point model_name)
        (summarize_body (summarize depth') text token_quantities division_point model_name)
  end.

(** The loop building [summaries_joined], entered at index [i]. *)
Fixpoint number_summaries (i : nat) (summaries : list string) (summaries_joined : string)
  : string :=
  match summaries with
  | [] => summaries_joined
  | summary :: rest =>
      number_summaries (S i) rest
        (summaries_joined +:+ "Summary " +:+ pretty (i + 1)%nat +:+ ": " +:+ summary
           +:+ newline +:+ newline)
  end.

(** The prompt of [synthesize_summaries] before [.strip()]. *)
Definition synthesis_prompt (summaries : list string) : string :=
  newline
  +:+ "A less powerful GPT model generated " +:+ pretty (length summaries)
  +:+ " summaries of a book." +:+ newline
  +:+ newline
  +:+ "Because of the way that the summaries are generated, they may not be perfect. Please review them"
  +:+ newline
  +:+ "and synthesize them into a single more detailed summary that you think is best."
  +:+ newline
  +:+ newline
  +:+ "The summaries are as follows: " +:+ number_summaries 0 summaries EmptyString
  +:+ newline.

Definition synthesis_messages (summaries : list string) : list Message :=
  [mkMessage "user" (strip (synthesis_prompt summaries))].

(** The body of [synthesize_summaries]. *)
Definition synthesize_summaries_body (summaries : list string) (model : string)
  : World -> Outcome string * World :=
  fun w =>
    let messages := synthesis_messages summaries in
    if num_tokens_from_messages E messages model_name <=? 8192 then
      match chat_completions_create E (api_calls w) model messages with
      | Completed r => (Returned (content r), count_call w)
      | Failed e => (Raised e, count_call w)
      end
    else (Raised (mkExn AssertionError None), w).

(** [synthesize_summaries], decorated with [memoize_to_file(cache_file="cache.json")]. *)
Definition synthesize_summaries (summaries : list string) (model : string) : Run string :=
  Utilities.memoize_to_file (SynthesizeKey summaries model)
    (total (synthesize_summaries_body summaries model)).

End Script.

(** ** Derived notions used in the statements *)

(** A provider error that the loop answers with a retry: one of the caught
    classes, and not flagged as not to be retried. *)
Definition transient (e : PyExn) : bool :=
  caught e && negb (flagged_no_retry e).

(** Every request fails with a transient error. *)
Definition always_fails_transiently (E : Env) : Prop :=
  forall n model messages,
    exists e, chat_completions_create E n model messages = Failed e /\ transient e = true.

(** [needle in s]. *)
Fixpoint contains (needle s : string) : bool :=
  String.prefix needle s
  || match s with
     | String _ s' => contains needle s'
     | EmptyString => false
     end.

(** The store agrees with the first branch of [summarize]: a stored call
    whose text is within the target size holds that text itself.  The empty
    store has this property and every call of [summarize] keeps it. *)
Definition short_entries_consistent (E : Env) (w : World) : Prop :=
  forall t p d m v,
    cache_json w !! SummarizeKey t p d m = Some v ->
    token_count E t <= target_summary_size p ->
    v = t.

(** [''.join(sections)]. *)
Definition rejoin (sections : list string) : string :=
  fold_right String.append EmptyString sections.

(** The comprehension of the third branch: the sections of [t], each handed
    to [summarize] at the given depth. *)
Definition summarize_sections (E : Env) (p : SummarizationParameters) (dp m : string)
    (depth : nat) (t : string) : Run (list string) :=
  for_each (fun x => summarize E depth x p dp m)
    (splitter E t (summary_input_size p) dp m).

(** ** Concrete environments

    The tokenizer of these environments makes every character one token;
    the helpers of [utilities] are the ones modelled above. *)

Definition char_tokens (s : string) : list Z :=
  map (fun c => Z.of_nat (nat_of_ascii c)) (String.list_ascii_of_string s).

Definition demo_num_tokens (messages : list Message) (model : string) : Z :=
  fold_right (fun m n => 4 + len (char_tokens (role m)) + len (char_tokens (body m)) + n)
    3 messages.

Definition demo_prompt (text : string) (target : Z) : list Message :=
  [mkMessage "system" ("Summarize the text in " +:+ pretty target +:+ " tokens.");
   mkMessage "user" text].

Definition demo_env (provider : nat -> string -> list Message -> ApiOutcome)
    (random : nat -> float) : Env :=
  mkEnv char_tokens demo_num_tokens demo_prompt
    (Utilities.split_text_into_sections (fun _ => char_tokens)) provider random.

(** A provider that answers every request with the same completion. *)
Definition answers (c : string) : nat -> string -> list Message -> ApiOutcome :=
  fun _ _ _ => Completed (mkCompletion c 7).

(** A provider whose first [k] requests hit the rate limit. *)
Definition rate_limited (k : nat) (c : string) : nat -> string -> list Message -> ApiOutcome :=
  fun n _ _ =>
    if (n <? k)%nat then Failed (mkExn RateLimitError None)
    else Completed (mkCompletion c 7).

(** A provider that cannot be reached. *)
Definition unreachable : nat -> string -> list Message -> ApiOutcome :=
  fun _ _ _ => Failed (mkExn APIConnectionError None).

(** The largest value [random.random()] returns, [1 - 2**-53]. *)
Definition largest_draw : float := 0x1.fffffffffffffp-1%float.

Definition half : nat -> float := fun _ => 0.5%float.

(** The world a run ends in ([initial_world] when there is none). *)
Definition world_after {A} (r : option (Outcome A * World)) : World :=
  match r with
  | Some (_, w) => w
  | None => initial_world
  end.

(** The value a run returns, if it returns one. *)
Definition returned {A} (r : option (Outcome A * World)) : option A :=
  match r with
  | Some (Returned a, _) => Some a
  | _ => None
  end.

(** ** Concrete inputs *)

Definition two_sentences : string :=
  "This sentence has more than twenty characters. So has this second sentence of the text.".

Definition small_budget : SummarizationParameters := mkParams 10 50.

(** A summary of 9000 characters. *)
Definition long_summary : string := String.concat EmptyString (replicate 900 "0123456789").

Definition helpful_env : Env := demo_env (answers "A summary.") half.

Definition roomy_budget : SummarizationParameters := mkParams 16 100.

(** Every stored value has at most 16 characters. *)
Definition stores_short_values (w : World) : Prop :=
  forall k v, cache_json w !! k = Some v -> (String.length v <= 16)%nat.

Definition three_sentences : string :=
  "The first sentence of the text is a fairly long one. "
  +:+ "The second sentence is not much shorter than it. "
  +:+ "The third sentence ends the text.".

(** A completion that is longer than the target it was asked for. *)
Definition stubborn_answer : string := "The model ignores the request.".

Definition wrapped_answer : string := "[[[" +:+ stubborn_answer +:+ "]]]".

(** Two such summaries joined by a blank line. *)
Definition looping_text : string :=
  wrapped_answer +:+ newline +:+ newline +:+ wrapped_answer.

Definition looping_sections : list string :=
  ["[[[The model ignores the request.";
   "]]]" +:+ newline +:+ newline +:+ "[[[The model ignores the request.]]]"].

Definition stubborn_env : Env := demo_env (answers stubborn_answer) half.

(** The store has no entry for [looping_text], and holds for each of its
    sections either nothing or the wrapped answer. *)
Definition loop_invariant (w : World) : Prop :=
  cache_json w !! SummarizeKey looping_text small_budget "." model_name = None /\
  forall x, x ∈ looping_sections ->
    cache_json w !! SummarizeKey x small_budget "." model_name = None \/
    cache_json w !! SummarizeKey x small_budget "." model_name = Some wrapped_answer.

(** ** [str.replace(old, new)] *)

(** The scan of [s.replace(old, new)] for a non-empty [old]: occurrences are
    taken from the left and do not overlap.  Every step consumes a
    character, so [steps] only has to be the length of [s]. *)
Fixpoint replace_loop (steps : nat) (old new s : string) : string :=
  match steps with
  | O => s
  | S steps' =>
      if String.prefix old s then
        new +:+ replace_loop steps' old new (Utilities.drop (String.length old) s)
      else
        match s with
        | String c s' => String c (replace_loop steps' old new s')
        | EmptyString => EmptyString
        end
  end.

(** [s.replace(old, new)] for the empty [old]: [new] before every character
    and at the end. *)
Fixpoint interleave (new s : string) : string :=
  match s with
  | String c s' => new +:+ String c (interleave new s')
  | EmptyString => new
  end.

Definition replace (old new s : string) : string :=
  match old with
  | EmptyString => interleave new s
  | _ => replace_loop (String.length s) old new s
  end.

(** ** The driver at the end of the script *)

Definition division_point : string := ".".

Definition target_summary_sizes : list Z := [500; 750; 1000].

(** The two [replace] calls of the driver, which take out ["[[["] and then
    ["]]]"]. *)
Definition strip_markers (summary : string) : string :=
  replace "]]]" EmptyString (replace "[[[" EmptyString summary).

(** [summaries[k] = v] on a dict, which keeps its keys in insertion order:
    an existing key keeps its place, a new one goes last. *)
Fixpoint dict_set (k : Z) (v : string) (summaries : list (Z * string))
  : list (Z * string) :=
  match summaries with
  | [] => [(k, v)]
  | (k', v') :: rest =>
      if decide (k = k') then (k, v) :: rest else (k', v') :: dict_set k v rest
  end.

(** [list(summaries.values())]. *)
Definition dict_values (summaries : list (Z * string)) : list string :=
  map snd summaries.

(** [actual_tokens = 0]. *)
Definition reset_actual_tokens : Run unit :=
  fun w =>
    Some (Returned tt,
          mkWorld 0 (cache_json w) (api_calls w) (random_draws w) (slept w)).

(** An expression that is evaluated without touching the world. *)
Definition evaluate {A} (o : Outcome A) : Run A := fun w => Some (o, w).

Section Driver.

Context (E : Env).

(** The loop [for target_summary_size in target_summary_sizes], entered with
    the dict [summaries] and the sizes still to be processed. *)
Fixpoint summarize_targets (depth : nat) (book : string) (targets : list Z)
    (summaries : list (Z * string)) : Run (list (Z * string)) :=
  match targets with
  | [] => ret summaries
  | target_summary_size :: rest =>
      let* _ := reset_actual_tokens in
      let* token_quantities :=
        evaluate (summarization_token_parameters E target_summary_size 16000) in
      let* summary := summarize E depth book token_quantities division_point model_name in
      summarize_targets depth book rest
        (dict_set target_summary_size (strip_markers summary) summaries)
  end.

(** Lines 206 to 225 of the script, for the text [book]. *)
Definition script (depth : nat) (book : string) : Run string :=
  let* summaries := summarize_targets depth book target_summary_sizes [] in
  synthesize_summaries E (dict_values summaries) "gpt-4".

End Driver.

(** ** Notions used in the further properties *)

(** The leading run of the character [c] in [s]. *)
Fixpoint leading (c : ascii) (s : string) : nat :=
  match s with
  | String a s' => if decide (a = c) then S (leading c s') else O
  | EmptyString => O
  end.

(** [c] repeated [k] times. *)
Fixpoint repeated (k : nat) (c : ascii) : string :=
  match k with
  | O => EmptyString
  | S k' => String c (repeated k' c)
  end.

(** A value of the form ["[[[" + c + "]]]"]. *)
Definition wrapped (v : string) : Prop := exists c, v = "[[[" +:+ c +:+ "]]]".

(** Every value stored for a call of [summarize] is within the target size
    of that call or is a wrapped completion. *)
Definition store_shaped (E : Env) (w : World) : Prop :=
  forall t p d m v,
    cache_json w !! SummarizeKey t p d m = Some v ->
    token_count E v <= target_summary_size p \/ wrapped v.

(** Every request is answered with a completion. *)
Definition always_completes (E : Env) : Prop :=
  forall n model messages, exists r, chat_completions_create E n model messages = Completed r.

(** The effects of requests: everything of the world but the store. *)
Definition same_effects (w w' : World) : Prop :=
  api_calls w' = api_calls w /\
  actual_tokens w' = actual_tokens w /\
  random_draws w' = random_draws w /\
  slept w' = slept w.

(** [e] is the answer to one of the requests numbered from [lo] to below
    [hi], a summarization request for the target size of [p]. *)
Definition failed_request (E : Env) (p : SummarizationParameters) (e : PyExn)
    (lo hi : nat) : Prop :=
  exists n text,
    (lo <= n < hi)%nat /\
    chat_completions_create E n model_name
      (summarization_prompt_messages E text (target_summary_size p)) = Failed e.

(** The exception a run raises, if it raises one. *)
Definition raised {A} (r : option (Outcome A * World)) : option PyExn :=
  match r with
  | Some (Raised e, _) => Some e
  | _ => None
  end.

(** A run whose final world has [k] added to [actual_tokens]. *)
Definition with_more_tokens {A} (k : Z) (r : option (Outcome A * World))
  : option (Outcome A * World) :=
  match r with
  | Some (out, w') => Some (out, add_tokens k w')
  | None => None
  end.

(** The line of the synthesis prompt for the summary at position [i],
    counted from 0. *)
Definition summary_line (i : nat) (summary : string) : string :=
  "Summary " +:+ pretty (i + 1)%nat +:+ ": " +:+ summary +:+ newline +:+ newline.

(** The world after [k] more failed attempts that were retried, when
    [tries] attempts had been made before: each is a counted request
    followed by its backoff. *)
Fixpoint after_retries (E : Env) (k tries : nat) (w : World) : World :=
  match k with
  | O => w
  | S k' => after_retries E k' (S tries) (back_off E (S tries) (count_call w))
  end.

(** The first [k] requests sent from [w] on for [text] fail with errors
    that are retried. *)
Definition fails_transiently (E : Env) (text : string) (target : Z) (k : nat) (w : World)
  : Prop :=
  forall i, (i < k)%nat ->
    exists e,
      chat_completions_create E (api_calls w + i) model_name
        (summarization_prompt_messages E text target) = Failed e /\
      transient e = true.

(** An environment whose splitter hands the text back as its only section. *)
Definition unsplit_env : Env :=
  mkEnv char_tokens demo_num_tokens demo_prompt (fun text _ _ _ => [text])
    (answers "A summary.") half.

(** ** The retry loop *)

Section GptSummarize.

Context (E : Env).

Lemma gpt_summarize_loop_eq tries text target w :
  gpt_summarize_loop E tries text target w =
  match chat_completions_create E (api_calls w) model_name
          (summarization_prompt_messages E text target) with
  | Completed r =>
      (Returned ("[[[" +:+ content r +:+ "]]]"), add_tokens (total_tokens r) (count_call w))
  | Failed e =>
      if caught e then
        if decide (MAX_ATTEMPTS <= S tries)%nat then (Raised e, count_call w)
        else if flagged_no_retry e then (Raised e, count_call w)
        else gpt_summarize_loop E (S tries) text target (back_off E (S tries) (count_call w))
      else (Raised e, count_call w)
  end.
Proof.
  rewrite gpt_summarize_loop_equation_1.
  destruct (chat_completions_create E (api_calls w) model_name _) as [r|e]; simpl; [done|].
  destruct (caught e); simpl; [|done].
  destruct (decide (MAX_ATTEMPTS <= S tries)%nat); simpl; [done|].
  destruct (flagged_no_retry e); done.
Qed.

Lemma transient_inv e :
  transient e = true -> caught e = true /\ flagged_no_retry e = false.
Proof.
  unfold transient. intros H. apply andb_true_iff in H as [H1 H2].
  split; [done|]. by apply negb_true_iff.
Qed.

(** One failed attempt that is retried: the request is counted, one value
    is drawn, one sleep is taken, and the loop goes on. *)
Lemma gpt_summarize_loop_retry tries text target w e :
  chat_completions_create E (api_calls w) model_name
    (summarization_prompt_messages E text target) = Failed e ->
  transient e = true ->
  (S tries < MAX_ATTEMPTS)%nat ->
  gpt_summarize_loop E tries text target w =
  gpt_summarize_loop E (S tries) text target (back_off E (S tries) (count_call w)).
Proof.
  intros Hcall [Hc Hf]%transient_inv Hlt.
  rewrite gpt_summarize_loop_eq, Hcall, Hc, Hf.
  destruct (decide (MAX_ATTEMPTS <= S tries)%nat); [lia|done].
Qed.

(** The last attempt: a caught error is raised without a further sleep. *)
Lemma gpt_summarize_loop_last tries text target w e :
  chat_completions_create E (api_calls w) model_name
    (summarization_prompt_messages E text target) = Failed e ->
  caught e = true ->
  (MAX_ATTEMPTS <= S tries)%nat ->
  gpt_summarize_loop E tries text target w = (Raised e, count_call w).
Proof.
  intros Hcall Hc Hge.
  rewrite gpt_summarize_loop_eq, Hcall, Hc.
  destruct (decide (MAX_ATTEMPTS <= S tries)%nat); [done|lia].
Qed.

(** What the loop does to the world, whatever the provider answers: the
    store is untouched, at least one request is sent, and the outcome is
    decided by the answer to the last request. *)
Lemma gpt_summarize_loop_accounting tries text target w :
  let '(out, w') := gpt_summarize_loop E tries text target w in
  cache_json w' = cache_json w /\
  (api_calls w < api_calls w')%nat /\
  match out with
  | Returned v =>
      exists r,
        chat_completions_create E (Nat.pred (api_calls w')) model_name
          (summarization_prompt_messages E text target) = Completed r /\
        v = "[[[" +:+ content r +:+ "]]]" /\
        actual_tokens w' = actual_tokens w + total_tokens r
  | Raised e =>
      chat_completions_create E (Nat.pred (api_calls w')) model_name
        (summarization_prompt_messages E text target) = Failed e /\
      actual_tokens w' = actual_tokens w
  end.
Proof.
  funelim (gpt_summarize_loop E tries text target w);
    try (simpl; repeat split; eauto; lia).
  destruct (gpt_summarize_loop E (S tries) text target _) as [out w'].
  simpl in H. destruct H as (Hc & Hn & Hout).
  repeat split; [done|lia|done].
Qed.

(** The number of requests of one invocation never exceeds [MAX_ATTEMPTS]. *)
Lemma gpt_summarize_loop_calls tries text target w :
  (tries < MAX_ATTEMPTS)%nat ->
  (api_calls (gpt_summarize_loop E tries text target w).2 + tries
     <= api_calls w + MAX_ATTEMPTS)%nat.
Proof.
  funelim (gpt_summarize_loop E tries text target w); intros Hlt; simpl; try lia.
  assert (S tries < MAX_ATTEMPTS)%nat as Hlt' by lia.
  specialize (H Hlt'). simpl in H. lia.
Qed.

End GptSummarize.

(** An error flagged as not to be retried is raised after one request. *)
Lemma gpt_summarize_not_retried (E : Env) (text : string) (target : Z) (w : World)
    (e : PyExn) :
  chat_completions_create E (api_calls w) model_name
    (summarization_prompt_messages E text target) = Failed e ->
  flagged_no_retry e = true ->
  gpt_summarize E text target w = (Raised e, count_call w).
Proof.
  intros Hcall Hf. unfold gpt_summarize.
  rewrite gpt_summarize_loop_eq, Hcall, Hf.
  destruct (caught e); [|done].
  by destruct (decide (MAX_ATTEMPTS <= 1)%nat).
Qed.

(** Two rate-limited attempts, then an answer: three requests, the usage
    of the third one only, and waits of [3 * 1 * 1] and [3 * 2 * 2] seconds
    for the draw [0.5]. *)
Example gpt_summarize_third_attempt_succeeds :
  gpt_summarize (demo_env (rate_limited 2 "A summary.") half) "A text to summarize." 5
    initial_world
  = (Returned "[[[A summary.]]]", mkWorld 7 ∅ 3 2 [12%float; 3%float]).
Proof. vm_compute. reflexivity. Qed.

(** C10: an invocation of [gpt_summarize] that returns has added to
    [actual_tokens] the usage reported by the one request that succeeded
    (the last one it sent) and nothing for the attempts that failed before
    it; an invocation that raises leaves [actual_tokens] as it was; in both
    cases the memoization store, the script's other piece of global state,
    is untouched. *)
Theorem gpt_summarize_counts_usage_once (E : Env) (text : string) (target : Z) (w : World) :
  let '(out, w') := gpt_summarize E text target w in
  cache_json w' = cache_json w /\
  match out with
  | Returned v =>
      exists r,
        chat_completions_create E (Nat.pred (api_calls w')) model_name
          (summarization_prompt_messages E text target) = Completed r /\
        v = "[[[" +:+ content r +:+ "]]]" /\
        actual_tokens w' = actual_tokens w + total_tokens r
  | Raised _ => actual_tokens w' = actual_tokens w
  end.
Proof.
  unfold gpt_summarize.
  pose proof (gpt_summarize_loop_accounting E 0 text target w) as H.
  destruct (gpt_summarize_loop E 0 text target w) as [[v|e] w'].
  - destruct H as (Hc & _ & r & Hr & Hv & Ht). split; [done|]. by exists r.
  - destruct H as (Hc & _ & _ & Ht). done.
Qed.

(** C4: when every request fails with a transient provider error,
    [gpt_summarize] sends exactly three requests ([MAX_ATTEMPTS]) and then
    raises the error of the third one: there is no fourth request and no
    returned value, [actual_tokens] and the store are unchanged, and two
    sleeps were taken (after the first and the second attempt). *)
Theorem gpt_summarize_gives_up_after_max_attempts (E : Env) (text : string) (target : Z)
    (w : World) :
  always_fails_transiently E ->
  exists e w',
    gpt_summarize E text target w = (Raised e, w') /\
    chat_completions_create E (api_calls w + 2) model_name
      (summarization_prompt_messages E text target) = Failed e /\
    api_calls w' = (api_calls w + MAX_ATTEMPTS)%nat /\
    actual_tokens w' = actual_tokens w /\
    cache_json w' = cache_json w /\
    length (slept w') = (length (slept w) + 2)%nat.
Proof.
  intros Hfail. unfold gpt_summarize.
  set (msgs := summarization_prompt_messages E text target).
  destruct (Hfail (api_calls w) model_name msgs) as (e1 & H1 & T1).
  destruct (Hfail (S (api_calls w)) model_name msgs) as (e2 & H2 & T2).
  destruct (Hfail (S (S (api_calls w))) model_name msgs) as (e3 & H3 & T3).
  rewrite (gpt_summarize_loop_retry E 0 text target w e1 H1 T1)
    by (unfold MAX_ATTEMPTS; lia).
  set (w1 := back_off E 1 (count_call w)).
  rewrite (gpt_summarize_loop_retry E 1 text target w1 e2 H2 T2)
    by (unfold MAX_ATTEMPTS; lia).
  set (w2 := back_off E 2 (count_call w1)).
  rewrite (gpt_summarize_loop_last E 2 text target w2 e3 H3)
    by (first [by apply transient_inv | unfold MAX_ATTEMPTS; lia]).
  exists e3. eexists. split; [reflexivity|]. simpl.
  replace (api_calls w + 2)%nat with (S (S (api_calls w))) by lia.
  repeat split; [done | unfold MAX_ATTEMPTS; lia | lia].
Qed.

Lemma gpt_summarize_gives_up_after_max_attempts_witness :
  always_fails_transiently (demo_env unreachable half) /\
  exists e w',
    gpt_summarize (demo_env unreachable half) "A text to summarize." 5 initial_world
      = (Raised e, w') /\
    chat_completions_create (demo_env unreachable half) (api_calls initial_world + 2)
      model_name
      (summarization_prompt_messages (demo_env unreachable half) "A text to summarize." 5)
      = Failed e /\
    api_calls w' = (api_calls initial_world + MAX_ATTEMPTS)%nat /\
    actual_tokens w' = actual_tokens initial_world /\
    cache_json w' = cache_json initial_world /\
    length (slept w') = (length (slept initial_world) + 2)%nat.
Proof.
  assert (always_fails_transiently (demo_env unreachable half)) as H.
  { intros n model messages. exists (mkExn APIConnectionError None).
    split; reflexivity. }
  split; [exact H|].
  exact (gpt_summarize_gives_up_after_max_attempts (demo_env unreachable half)
           "A text to summarize." 5 initial_world H).
Defined.

(** C9 (as amended): before the retry that follows the transiently failed
    attempt number [t = tries + 1 < MAX_ATTEMPTS], [gpt_summarize] draws
    one value [u] from [random.random()] and sleeps once, for
    [(r * t) * t] seconds with [r = u * 4.0 + 1.0], all in binary64
    arithmetic; nothing else changes before the next attempt.  The
    statement does not promise [r < 5]. *)
Theorem gpt_summarize_retry_sleeps_r_t_t (E : Env) (tries : nat) (text : string)
    (target : Z) (w : World) (e : PyExn) :
  chat_completions_create E (api_calls w) model_name
    (summarization_prompt_messages E text target) = Failed e ->
  transient e = true ->
  (S tries < MAX_ATTEMPTS)%nat ->
  let t := float_of_nat (S tries) in
  let r := (random_random E (random_draws w) * 4.0 + 1.0)%float in
  gpt_summarize_loop E tries text target w =
  gpt_summarize_loop E (S tries) text target
    (mkWorld (actual_tokens w) (cache_json w) (S (api_calls w)) (S (random_draws w))
       ((r * t * t)%float :: slept w)).
Proof.
  intros Hcall Ht Hlt t r.
  rewrite (gpt_summarize_loop_retry E tries text target w e Hcall Ht Hlt).
  reflexivity.
Qed.

Lemma gpt_summarize_retry_sleeps_r_t_t_witness :
  let E := demo_env (rate_limited 1 "A summary.") half in
  chat_completions_create E (api_calls initial_world) model_name
    (summarization_prompt_messages E "A text to summarize." 5)
    = Failed (mkExn RateLimitError None) /\
  transient (mkExn RateLimitError None) = true /\
  (1 < MAX_ATTEMPTS)%nat /\
  gpt_summarize_loop E 0 "A text to summarize." 5 initial_world =
  gpt_summarize_loop E 1 "A text to summarize." 5
    (mkWorld 0 ∅ 1 1 [((0.5 * 4.0 + 1.0) * float_of_nat 1 * float_of_nat 1)%float]).
Proof.
  split; [reflexivity|]. split; [reflexivity|]. split; [exact (le_S 2 2 (le_n 2))|].
  exact (gpt_summarize_retry_sleeps_r_t_t (demo_env (rate_limited 1 "A summary.") half)
           0 "A text to summarize." 5 initial_world (mkExn RateLimitError None)
           eq_refl eq_refl (le_S 2 2 (le_n 2))).
Defined.

(** C9, the claim as stated fails: [random.random()] can return
    [1 - 2**-53] (the generator computes
    [(a * 67108864.0 + b) * (1.0 / 9007199254740992.0)] from 27 bits [a] and
    26 bits [b]; this is its value when all of them are set), a draw within
    [0, 1), and then [random.random() * 4.0 + 1.0] rounds to [5.0]: the
    wait after the first failed attempt is 5 seconds, not less. *)
Lemma gpt_summarize_wait_reaches_five :
  ((134217727 * 67108864 + 67108863) * (1 / 9007199254740992))%float = largest_draw /\
  (0 <=? largest_draw)%float = true /\
  (largest_draw <? 1)%float = true /\
  slept (gpt_summarize (demo_env (rate_limited 1 "A summary.") (fun _ => largest_draw))
           "A text to summarize." 5 initial_world).2 = [5%float] /\
  (random_wait largest_draw <? 5)%float = false.
Proof. vm_compute. repeat split; reflexivity. Qed.

(** ** The token budget *)

(** C1 (as amended): [summarization_token_parameters] never fails.  For
    every target size and context size it returns the parameters with the
    target size unchanged and with
    [summary_input_size = model_context_size - (base_prompt_size + target_summary_size)],
    also when that number is zero or negative. *)
Theorem summarization_token_parameters_returns (E : Env)
    (target_size model_context_size : Z) :
  exists p,
    summarization_token_parameters E target_size model_context_size = Returned p /\
    target_summary_size p = target_size /\
    summary_input_size p =
      model_context_size
      - (num_tokens_from_messages E (summarization_prompt_messages E EmptyString target_size) model_name
         + target_size).
Proof. eexists. repeat split. Qed.

(** C1, the claim as stated fails: with a context of 100 tokens and a
    target of 1000 the budget is negative, and the parameters are returned
    all the same. *)
Lemma summarization_token_parameters_negative_budget :
  summarization_token_parameters helpful_env 1000 100
    = Returned (mkParams 1000 (-955)) /\
  100 - (num_tokens_from_messages helpful_env
           (summarization_prompt_messages helpful_env EmptyString 1000)
           model_name
         + 1000) <= 0.
Proof. vm_compute. split; [reflexivity | discriminate]. Qed.

(** ** Comprehensions *)

Lemma for_each_mono {A B} (f g : A -> Run B) (l : list A) :
  (forall x w r, f x w = Some r -> g x w = Some r) ->
  forall w r, for_each f l w = Some r -> for_each g l w = Some r.
Proof.
  intros Hfg. induction l as [|x l IH]; intros w r; simpl; [done|].
  unfold bind. destruct (f x w) as [[[y|e] w1]|] eqn:Hf; [| |done].
  - rewrite (Hfg _ _ _ Hf).
    destruct (for_each f l w1) as [[[ys|e] w2]|] eqn:Hl; [| |done].
    + by rewrite (IH _ _ Hl).
    + by rewrite (IH _ _ Hl).
  - by rewrite (Hfg _ _ _ Hf).
Qed.

Lemma for_each_preserves {A B} (P : World -> Prop) (f : A -> Run B) (l : list A) :
  (forall x w out w', P w -> f x w = Some (out, w') -> P w') ->
  forall w out w', P w -> for_each f l w = Some (out, w') -> P w'.
Proof.
  intros Hf. induction l as [|x l IH]; intros w out w' HP; simpl.
  - by intros [= <- <-].
  - unfold bind. destruct (f x w) as [[[y|e] w1]|] eqn:Hx; [| |done].
    + pose proof (Hf _ _ _ _ HP Hx) as HP1.
      destruct (for_each f l w1) as [[[ys|e] w2]|] eqn:Hl; [| |done].
      * intros [= <- <-]. by apply (IH _ _ _ HP1 Hl).
      * intros [= <- <-]. by apply (IH _ _ _ HP1 Hl).
    + intros [= <- <-]. by apply (Hf _ _ _ _ HP Hx).
Qed.

Lemma for_each_cons_returned {A B} (f : A -> Run B) x l w ys w' :
  for_each f (x :: l) w = Some (Returned ys, w') ->
  exists y w1 ys',
    f x w = Some (Returned y, w1) /\
    for_each f l w1 = Some (Returned ys', w') /\
    ys = y :: ys'.
Proof.
  simpl. unfold bind, ret.
  destruct (f x w) as [[[y|e] w1]|]; [|done..].
  destruct (for_each f l w1) as [[[ys'|e] w2]|] eqn:Hl; [|done..].
  intros H. injection H as <- <-. by exists y, w1, ys'.
Qed.

Lemma for_each_length {A B} (f : A -> Run B) l w ys w' :
  for_each f l w = Some (Returned ys, w') -> length ys = length l.
Proof.
  revert w ys w'. induction l as [|x l IH]; intros w ys w' H.
  - injection H as <- <-. done.
  - apply for_each_cons_returned in H as (y & w1 & ys' & _ & Hl & ->).
    simpl. by rewrite (IH _ _ _ Hl).
Qed.

Lemma for_each_two {A B} (f : A -> Run B) a b w y1 w1 y2 w2 :
  f a w = Some (Returned y1, w1) ->
  f b w1 = Some (Returned y2, w2) ->
  for_each f [a; b] w = Some (Returned [y1; y2], w2).
Proof. intros H1 H2. simpl. unfold bind, ret. by rewrite H1, H2. Qed.

Lemma for_each_finishes {A B} (f : A -> Run B) (l : list A) :
  Forall (fun x => forall w, exists r, f x w = Some r) l ->
  forall w, exists r, for_each f l w = Some r.
Proof.
  induction 1 as [|x l Hx Hl IH]; intros w; simpl; [by eexists|].
  unfold bind. destruct (Hx w) as [[[y|e] w1] ->]; [|by eexists].
  destruct (IH w1) as [[[ys|e] w2] ->]; by eexists.
Qed.

(** ** Memoization and the recursion *)

Section Summarize.

Context (E : Env).

Lemma summarize_eq depth text p dp m :
  summarize E (S depth) text p dp m =
  Utilities.memoize_to_file (SummarizeKey text p dp m)
    (summarize_body E (summarize E depth) text p dp m).
Proof. reflexivity. Qed.

Lemma memoize_to_file_hit key f w v :
  cache_json w !! key = Some v ->
  Utilities.memoize_to_file key f w = Some (Returned v, w).
Proof. intros H. unfold Utilities.memoize_to_file. by rewrite H. Qed.

Lemma memoize_to_file_miss key f w :
  cache_json w !! key = None ->
  Utilities.memoize_to_file key f w =
  match f w with
  | Some (Returned v, w') => Some (Returned v, cache_put key v w')
  | Some (Raised e, w') => Some (Raised e, w')
  | None => None
  end.
Proof. intros H. unfold Utilities.memoize_to_file. by rewrite H. Qed.

Lemma cache_put_same key v w :
  cache_json w !! key = Some v -> cache_put key v w = w.
Proof.
  intros H. destruct w as [a c n r s]. unfold cache_put. simpl in *.
  f_equal. by apply insert_id.
Qed.

Lemma memoize_to_file_stores key f w v w' :
  Utilities.memoize_to_file key f w = Some (Returned v, w') ->
  cache_json w' !! key = Some v.
Proof.
  unfold Utilities.memoize_to_file.
  destruct (cache_json w !! key) as [v0|] eqn:Hk.
  - intros [= <- <-]. done.
  - destruct (f w) as [[[v1|e] w1]|]; intros [= <- <-].
    simpl. apply lookup_insert_eq.
Qed.

Lemma summarize_short depth t p dp m w :
  (forall v, cache_json w !! SummarizeKey t p dp m = Some v -> v = t) ->
  token_count E t <= target_summary_size p ->
  summarize E (S depth) t p dp m w =
  Some (Returned t, cache_put (SummarizeKey t p dp m) t w).
Proof.
  intros Hc Hle. rewrite summarize_eq.
  destruct (cache_json w !! SummarizeKey t p dp m) as [v|] eqn:Hk.
  - rewrite (memoize_to_file_hit _ _ _ _ Hk).
    rewrite (Hc v eq_refl) in Hk |- *.
    by rewrite cache_put_same.
  - rewrite (memoize_to_file_miss _ _ _ Hk).
    unfold summarize_body.
    destruct (token_count E t <=? target_summary_size p) eqn:Hb; [done|].
    apply Z.leb_gt in Hb. lia.
Qed.

Lemma summarize_body_mono
    (self self' : string -> SummarizationParameters -> string -> string -> Run string)
    t p dp m :
  (forall x p dp m w r, self x p dp m w = Some r -> self' x p dp m w = Some r) ->
  forall w r, summarize_body E self t p dp m w = Some r ->
              summarize_body E self' t p dp m w = Some r.
Proof.
  intros Hs w r. unfold summarize_body.
  destruct (token_count E t <=? target_summary_size p); [done|].
  destruct (token_count E t <=? summary_input_size p); [done|].
  unfold bind.
  destruct (for_each _ _ w) as [[[ss|e] w1]|] eqn:Hl; [| |done].
  - rewrite (for_each_mono _ (fun x => self' x p dp m) _ (fun x => Hs x p dp m) _ _ Hl).
    apply Hs.
  - by rewrite (for_each_mono _ (fun x => self' x p dp m) _ (fun x => Hs x p dp m) _ _ Hl).
Qed.

Lemma summarize_mono depth depth' t p dp m w r :
  (depth <= depth')%nat ->
  summarize E depth t p dp m w = Some r ->
  summarize E depth' t p dp m w = Some r.
Proof.
  revert depth' t p dp m w r.
  induction depth as [|d IH]; intros depth' t p dp m w r Hle; [done|].
  destruct depth' as [|d']; [lia|].
  simpl. unfold Utilities.memoize_to_file.
  destruct (cache_json w !! SummarizeKey t p dp m); [done|].
  destruct (summarize_body E (summarize E d) t p dp m w) as [r0|] eqn:Hb; [|done].
  rewrite (summarize_body_mono (summarize E d) (summarize E d') t p dp m
             (fun x p dp m w r => IH d' x p dp m w r ltac:(lia)) _ _ Hb).
  done.
Qed.

Lemma gpt_summarize_cache text target w :
  cache_json (gpt_summarize E text target w).2 = cache_json w.
Proof.
  unfold gpt_summarize.
  pose proof (gpt_summarize_loop_accounting E 0 text target w) as H.
  destruct (gpt_summarize_loop E 0 text target w) as [out w']. by destruct H.
Qed.

Lemma consistent_put t p dp m v w :
  short_entries_consistent E w ->
  (token_count E t <= target_summary_size p -> v = t) ->
  short_entries_consistent E (cache_put (SummarizeKey t p dp m) v w).
Proof.
  intros Hc Hv t' p' d' m' v' Hk Hle. simpl in Hk.
  destruct (decide (SummarizeKey t p dp m = SummarizeKey t' p' d' m')) as [Heq|Hne].
  - rewrite Heq, lookup_insert_eq in Hk. injection Heq as -> -> -> ->.
    injection Hk as <-. by apply Hv.
  - rewrite lookup_insert_ne in Hk by done. by apply (Hc t' p' d' m').
Qed.

Lemma summarize_preserves_consistency depth t p dp m w out w' :
  short_entries_consistent E w ->
  summarize E depth t p dp m w = Some (out, w') ->
  short_entries_consistent E w'.
Proof.
  revert t p dp m w out w'.
  induction depth as [|d IH]; intros t p dp m w out w' Hc; [done|].
  simpl. unfold Utilities.memoize_to_file.
  destruct (cache_json w !! SummarizeKey t p dp m); [by intros [= <- <-]|].
  unfold summarize_body.
  destruct (token_count E t <=? target_summary_size p) eqn:H1.
  { intros [= <- <-]. by apply consistent_put. }
  apply Z.leb_gt in H1.
  destruct (token_count E t <=? summary_input_size p) eqn:H2.
  { unfold bind, total, ret.
    pose proof (gpt_summarize_cache t (target_summary_size p) w) as Hg.
    destruct (gpt_summarize E t (target_summary_size p) w) as [[v|e] w1];
      simpl in Hg; intros [= <- <-].
    - apply consistent_put; [|lia].
      intros ? ? ? ? ? Hk. rewrite Hg in Hk. by apply Hc in Hk.
    - intros ? ? ? ? ? Hk. rewrite Hg in Hk. by apply Hc in Hk. }
  unfold bind.
  destruct (for_each _ _ w) as [[[ss|e] w1]|] eqn:Hl; [| |done].
  - assert (short_entries_consistent E w1) as Hc1.
    { eapply (for_each_preserves (short_entries_consistent E)); [|exact Hc|exact Hl].
      intros x w0 out0 w0' H0 Hx. by apply (IH _ _ _ _ _ _ _ H0 Hx). }
    destruct (summarize E d _ p dp m w1) as [[[v|e] w2]|] eqn:Hj; intros [= <- <-].
    + apply consistent_put; [|lia]. by apply (IH _ _ _ _ _ _ _ Hc1 Hj).
    + by apply (IH _ _ _ _ _ _ _ Hc1 Hj).
  - intros [= <- <-].
    eapply (for_each_preserves (short_entries_consistent E)); [|exact Hc|exact Hl].
    intros x w0 out0 w0' H0 Hx. by apply (IH _ _ _ _ _ _ _ H0 Hx).
Qed.

Lemma initial_world_consistent : short_entries_consistent E initial_world.
Proof. intros t p d m v Hk. simpl in Hk. by rewrite lookup_empty in Hk. Qed.

(** [synthesize_summaries] stores under its own keys only. *)
Lemma synthesize_summaries_preserves_consistency summaries model w out w' :
  short_entries_consistent E w ->
  synthesize_summaries E summaries model w = Some (out, w') ->
  short_entries_consistent E w'.
Proof.
  intros Hc. unfold synthesize_summaries, Utilities.memoize_to_file, total,
    synthesize_summaries_body.
  destruct (cache_json w !! SynthesizeKey summaries model); [by intros [= <- <-]|].
  destruct (num_tokens_from_messages E _ model_name <=? 8192);
    [|by intros [= <- <-]].
  destruct (chat_completions_create E (api_calls w) model _) as [r|e];
    intros [= <- <-]; [|done].
  intros t p d m v Hk Hle. simpl in Hk. rewrite lookup_insert_ne in Hk by done.
  exact (Hc t p d m v Hk Hle).
Qed.

(** In a consistent store, what is stored for a short text is the text. *)
Lemma stored_short_text w t p dp m v :
  short_entries_consistent E w ->
  token_count E t <= target_summary_size p ->
  cache_json w !! SummarizeKey t p dp m = Some v ->
  v = t.
Proof. intros Hc Hle Hk. exact (Hc t p dp m v Hk Hle). Qed.

End Summarize.

Lemma returned_run {A} (r : option (Outcome A * World)) (a : A) :
  returned r = Some a -> r = Some (Returned a, world_after r).
Proof. destruct r as [[[b|e] w]|]; simpl; intros [= <-] || intros [=]; reflexivity. Qed.

(** ** The three branches of [summarize] *)

(** C5: a text whose token count is at most the target size is returned
    unchanged, and no request is sent: the provider counter, [actual_tokens],
    the random draws and the sleeps are as before (only the store may gain
    the entry of this call).  The store is assumed to have no entry for
    this call or to hold the text itself, as every store written by
    [summarize] does ([stored_short_text], [summarize_preserves_consistency]). *)
Theorem summarize_returns_short_text_unchanged (E : Env) (depth : nat) (t : string)
    (p : SummarizationParameters) (dp m : string) (w : World) :
  (forall v, cache_json w !! SummarizeKey t p dp m = Some v -> v = t) ->
  token_count E t <= target_summary_size p ->
  exists w',
    summarize E (S depth) t p dp m w = Some (Returned t, w') /\
    api_calls w' = api_calls w /\
    actual_tokens w' = actual_tokens w /\
    random_draws w' = random_draws w /\
    slept w' = slept w.
Proof.
  intros Hc Hle. eexists. split; [by apply summarize_short|]. done.
Qed.

Lemma summarize_returns_short_text_unchanged_witness :
  let key := SummarizeKey "Short." small_budget "." model_name in
  let w := cache_put key "Short." initial_world in
  (forall v, cache_json w !! key = Some v -> v = "Short.") /\
  token_count helpful_env "Short." <= target_summary_size small_budget /\
  exists w',
    summarize helpful_env 1 "Short." small_budget "." model_name w
      = Some (Returned "Short.", w') /\
    api_calls w' = api_calls w /\
    actual_tokens w' = actual_tokens w /\
    random_draws w' = random_draws w /\
    slept w' = slept w.
Proof.
  intros key w.
  assert (forall v, cache_json w !! key = Some v -> v = "Short.") as Hk.
  { intros v. unfold w. simpl. rewrite lookup_insert_eq. by intros [= <-]. }
  assert (token_count helpful_env "Short." <= target_summary_size small_budget) as Hle
    by (vm_compute; discriminate).
  split; [exact Hk|]. split; [exact Hle|].
  exact (summarize_returns_short_text_unchanged helpful_env 0 "Short." small_budget "."
           model_name w Hk Hle).
Defined.

(** C2 (as amended): for a text whose token count is above the target size
    and at most the input size, and whose call is not in the store,
    [summarize] delegates to [gpt_summarize] once and returns its outcome
    as it is.  Between one and [MAX_ATTEMPTS] requests are sent, exactly
    one when the first request succeeds, and a returned value is the
    completion wrapped in the markers, ["[[[" + content + "]]]"]: the
    markers are present in what [summarize] returns. *)
Theorem summarize_single_call_keeps_markers (E : Env) (depth : nat) (t : string)
    (p : SummarizationParameters) (dp m : string) (w : World) :
  cache_json w !! SummarizeKey t p dp m = None ->
  target_summary_size p < token_count E t <= summary_input_size p ->
  let '(out, w1) := gpt_summarize E t (target_summary_size p) w in
  summarize E (S depth) t p dp m w =
    Some (match out with
          | Returned v => (Returned v, cache_put (SummarizeKey t p dp m) v w1)
          | Raised e => (Raised e, w1)
          end) /\
  (api_calls w < api_calls w1 <= api_calls w + MAX_ATTEMPTS)%nat /\
  (forall r,
     chat_completions_create E (api_calls w) model_name
       (summarization_prompt_messages E t (target_summary_size p)) = Completed r ->
     out = Returned ("[[[" +:+ content r +:+ "]]]") /\ api_calls w1 = S (api_calls w)) /\
  (forall v, out = Returned v -> exists c, v = "[[[" +:+ c +:+ "]]]").
Proof.
  intros Hk [Hlo Hhi].
  pose proof (gpt_summarize_loop_accounting E 0 t (target_summary_size p) w) as Hacc.
  pose proof (gpt_summarize_loop_calls E 0 t (target_summary_size p) w) as Hcalls.
  pose proof (gpt_summarize_loop_eq E 0 t (target_summary_size p) w) as Heq.
  rewrite summarize_eq, (memoize_to_file_miss _ _ _ Hk).
  unfold summarize_body, bind, total, ret, gpt_summarize.
  destruct (token_count E t <=? target_summary_size p) eqn:H1;
    [apply Z.leb_le in H1; lia|].
  destruct (token_count E t <=? summary_input_size p) eqn:H2;
    [|apply Z.leb_gt in H2; lia].
  destruct (gpt_summarize_loop E 0 t (target_summary_size p) w) as [out w1].
  simpl in Hcalls. destruct Hacc as (_ & Hn & Hout).
  split; [by destruct out|].
  split; [unfold MAX_ATTEMPTS in *; lia|].
  split.
  - intros r Hr. rewrite Hr in Heq. by injection Heq as -> ->.
  - intros v ->. destruct Hout as (r & _ & -> & _). by exists (content r).
Qed.

Lemma summarize_single_call_keeps_markers_witness :
  let E := helpful_env in
  let t := "A text to summarize." in
  let key := SummarizeKey t small_budget "." model_name in
  cache_json initial_world !! key = None /\
  target_summary_size small_budget < token_count E t <= summary_input_size small_budget /\
  let '(out, w1) := gpt_summarize E t (target_summary_size small_budget) initial_world in
  summarize E 1 t small_budget "." model_name initial_world =
    Some (match out with
          | Returned v => (Returned v, cache_put key v w1)
          | Raised e => (Raised e, w1)
          end) /\
  (api_calls initial_world < api_calls w1 <= api_calls initial_world + MAX_ATTEMPTS)%nat /\
  (forall r,
     chat_completions_create E (api_calls initial_world) model_name
       (summarization_prompt_messages E t (target_summary_size small_budget)) = Completed r ->
     out = Returned ("[[[" +:+ content r +:+ "]]]") /\
     api_calls w1 = S (api_calls initial_world)) /\
  (forall v, out = Returned v -> exists c, v = "[[[" +:+ c +:+ "]]]").
Proof.
  intros E t key.
  assert (cache_json initial_world !! key = None) as Hk by apply lookup_empty.
  assert (target_summary_size small_budget < token_count E t
          <= summary_input_size small_budget) as Hr
    by (vm_compute; split; [reflexivity | discriminate]).
  split; [exact Hk|]. split; [exact Hr|].
  exact (summarize_single_call_keeps_markers E 0 t small_budget "." model_name
           initial_world Hk Hr).
Defined.

(** C2, the claim as stated fails: the text has 20 tokens, between the
    target of 10 and the input size of 50; one request is sent, and the
    value returned by [summarize] carries both markers. *)
Lemma summarize_returns_the_markers :
  let E := helpful_env in
  let t := "A text to summarize." in
  target_summary_size small_budget < token_count E t <= summary_input_size small_budget /\
  match summarize E 1 t small_budget "." model_name initial_world with
  | Some (Returned v, w') =>
      v = "[[[A summary.]]]" /\
      api_calls w' = 1%nat /\
      contains "[[[" v = true /\
      contains "]]]" v = true
  | _ => False
  end.
Proof. vm_compute. split; [split; [reflexivity | discriminate] | done]. Qed.

(** C3 (as amended): if a call of [summarize] returns a value, a second
    call with the same text, parameters, boundary and model name returns
    the same value and leaves the world exactly as it was: it is answered
    from the store, before any request, so it sends none.  (The first call
    itself may send more than one request.) *)
Theorem summarize_second_call_is_answered_from_store (E : Env) (depth depth' : nat)
    (t : string) (p : SummarizationParameters) (dp m : string) (w w1 : World) (v : string) :
  summarize E depth t p dp m w = Some (Returned v, w1) ->
  summarize E (S depth') t p dp m w1 = Some (Returned v, w1).
Proof.
  intros H. destruct depth as [|d]; [done|].
  rewrite summarize_eq in H. apply memoize_to_file_stores in H.
  rewrite summarize_eq. by apply memoize_to_file_hit.
Qed.

Lemma summarize_second_call_is_answered_from_store_witness :
  summarize helpful_env 2 two_sentences small_budget "."
    model_name initial_world
  = Some (Returned "[[[A summary.]]]",
          world_after (summarize helpful_env 2 two_sentences
                         small_budget "." model_name initial_world)) /\
  summarize helpful_env 1 two_sentences small_budget "."
    model_name
    (world_after (summarize helpful_env 2 two_sentences
                    small_budget "." model_name initial_world))
  = Some (Returned "[[[A summary.]]]",
          world_after (summarize helpful_env 2 two_sentences
                         small_budget "." model_name initial_world)).
Proof.
  assert (returned (summarize helpful_env 2 two_sentences
                      small_budget "." model_name initial_world)
          = Some "[[[A summary.]]]") as Hobs by (vm_compute; reflexivity).
  pose proof (returned_run _ _ Hobs) as H.
  split; [exact H|].
  exact (summarize_second_call_is_answered_from_store
           helpful_env 2 0 two_sentences small_budget "."
           model_name initial_world _ _ H).
Defined.

(** C3, the claim as stated fails: the text is cut into two sections, each
    is summarized with one request and so is the joined result; the two
    identical calls return the same value and together send three
    requests, all of them in the first call. *)
Lemma summarize_twice_sends_three_requests :
  let E := helpful_env in
  let call := summarize E 2 two_sentences small_budget "." model_name in
  match (let* a := call in let* b := call in ret (a, b)) initial_world with
  | Some (Returned (a, b), w) => a = b /\ api_calls w = 3%nat
  | _ => False
  end.
Proof. vm_compute. done. Qed.

(** ** The section splitter *)

Lemma append_empty_r s : s +:+ EmptyString = s.
Proof.
  induction s as [|c s IH]; [done|].
  change (String c (s +:+ EmptyString) = String c s). by rewrite IH.
Qed.

Lemma take_drop n s : Utilities.take n s +:+ Utilities.drop n s = s.
Proof.
  revert s. induction n as [|n IH]; intros [|c s]; simpl; try done.
  change (String c (Utilities.take n s +:+ Utilities.drop n s) = String c s).
  by rewrite IH.
Qed.

Lemma length_drop n s :
  String.length (Utilities.drop n s) = (String.length s - n)%nat.
Proof.
  revert s. induction n as [|n IH]; intros [|c s]; simpl; try done.
Qed.

Lemma length_take n s :
  String.length (Utilities.take n s) = (n `min` String.length s)%nat.
Proof.
  revert s. induction n as [|n IH]; intros [|c s]; simpl; try done.
  by rewrite IH.
Qed.

Lemma last_position_Some ok n p :
  Utilities.last_position ok n = Some p -> (1 <= p <= n)%nat /\ ok p = true.
Proof.
  induction n as [|n IH]; simpl; [done|].
  destruct (ok (S n)) eqn:Hok.
  - intros [= <-]. split; [lia|done].
  - intros H. destruct (IH H). split; [lia|done].
Qed.

Lemma last_position_None ok n p :
  Utilities.last_position ok n = None -> (1 <= p <= n)%nat -> ok p = false.
Proof.
  induction n as [|n IH]; simpl; [lia|].
  destruct (ok (S n)) eqn:Hok; [done|].
  intros H Hp. destruct (decide (p = S n)) as [->|Hne]; [done|].
  apply IH; [done|lia].
Qed.

Section SplitterFacts.

Context (enc : string -> string -> list Z).
Context (max_tokens : Z) (division_point model : string).

Lemma cut_point_range rest :
  rest <> EmptyString ->
  (1 <= Utilities.cut_point enc max_tokens division_point model rest
     <= String.length rest)%nat.
Proof.
  intros Hne. unfold Utilities.cut_point.
  destruct (Utilities.last_position
              (fun p => Utilities.fits enc max_tokens model rest p
                        && Utilities.at_boundary division_point rest p)
              (String.length rest)) as [p|] eqn:H1.
  { by apply last_position_Some in H1 as [? _]. }
  destruct (Utilities.last_position (Utilities.fits enc max_tokens model rest)
              (String.length rest)) as [p|] eqn:H2.
  { by apply last_position_Some in H2 as [? _]. }
  destruct rest; [done|]. simpl. lia.
Qed.

(** The sections of [rest], put together again, are [rest]: no character
    is lost, repeated or moved, provided the loop is given one step per
    character. *)
Lemma split_loop_lossless steps rest :
  (String.length rest <= steps)%nat ->
  rejoin (Utilities.split_loop enc max_tokens division_point model steps rest) = rest.
Proof.
  revert rest. induction steps as [|steps IH]; intros rest Hlen.
  - destruct rest; [done|simpl in Hlen; lia].
  - simpl. destruct (String.eqb rest EmptyString) eqn:He.
    { apply String.eqb_eq in He. by subst. }
    apply String.eqb_neq in He.
    destruct (len (enc model rest) <=? max_tokens).
    { simpl. apply append_empty_r. }
    simpl. rewrite IH; [apply take_drop|].
    pose proof (cut_point_range rest He). rewrite length_drop. lia.
Qed.

Lemma split_text_into_sections_lossless text :
  rejoin (Utilities.split_text_into_sections enc text max_tokens division_point model)
  = text.
Proof. unfold Utilities.split_text_into_sections. by apply split_loop_lossless. Qed.

End SplitterFacts.

Section SectionsFit.

Context (enc : string -> string -> list Z).
Context (max_tokens : Z) (division_point model : string).

Hypothesis one_character_fits :
  forall c, len (enc model (String c EmptyString)) <= max_tokens.

Lemma cut_point_fits rest :
  rest <> EmptyString ->
  len (enc model (Utilities.take
                    (Utilities.cut_point enc max_tokens division_point model rest) rest))
  <= max_tokens.
Proof.
  intros Hne. unfold Utilities.cut_point.
  destruct (Utilities.last_position
              (fun p => Utilities.fits enc max_tokens model rest p
                        && Utilities.at_boundary division_point rest p)
              (String.length rest)) as [q|] eqn:H1.
  { apply last_position_Some in H1 as [_ [H1 _]%andb_true_iff].
    by apply Z.leb_le in H1. }
  destruct (Utilities.last_position (Utilities.fits enc max_tokens model rest)
              (String.length rest)) as [q|] eqn:H2.
  { apply last_position_Some in H2 as [_ H2]. by apply Z.leb_le in H2. }
  destruct rest as [|c rest]; [done|]. apply one_character_fits.
Qed.

Lemma split_loop_within_budget steps rest :
  Forall (fun x => len (enc model x) <= max_tokens)
    (Utilities.split_loop enc max_tokens division_point model steps rest).
Proof.
  revert rest. induction steps as [|steps IH]; intros rest; simpl; [done|].
  destruct (String.eqb rest EmptyString) eqn:He; [done|].
  apply String.eqb_neq in He.
  destruct (len (enc model rest) <=? max_tokens) eqn:Hb.
  { apply Z.leb_le in Hb. by repeat constructor. }
  constructor; [by apply cut_point_fits | apply IH].
Qed.

End SectionsFit.

Lemma length_append a b : String.length (a +:+ b) = (String.length a + String.length b)%nat.
Proof.
  induction a as [|c a IH]; [done|].
  change (S (String.length (a +:+ b)) = S (String.length a + String.length b)).
  by rewrite IH.
Qed.

Lemma take_add p q s :
  Utilities.take (p + q) s = Utilities.take p s +:+ Utilities.take q (Utilities.drop p s).
Proof.
  revert s. induction p as [|p IH]; intros s; simpl.
  - by destruct s.
  - destruct s as [|c s]; [by destruct q|].
    change (String c (Utilities.take (p + q) s)
            = String c (Utilities.take p s +:+ Utilities.take q (Utilities.drop p s))).
    by rewrite IH.
Qed.

Lemma drop_append a b k :
  Utilities.drop (String.length a + k) (a +:+ b) = Utilities.drop k b.
Proof. induction a as [|c a IH]; [done|]. exact IH. Qed.

Lemma ends_with_append suffix a b :
  Utilities.ends_with suffix b = true -> Utilities.ends_with suffix (a +:+ b) = true.
Proof.
  unfold Utilities.ends_with. intros [H1 H2]%andb_true_iff.
  apply Nat.leb_le in H2. apply andb_true_iff. split.
  - rewrite length_append.
    replace (String.length a + String.length b - String.length suffix)%nat
      with (String.length a + (String.length b - String.length suffix))%nat by lia.
    by rewrite drop_append.
  - apply Nat.leb_le. rewrite length_append. lia.
Qed.

Lemma last_position_largest ok n p q :
  Utilities.last_position ok n = Some p -> (p < q <= n)%nat -> ok q = false.
Proof.
  induction n as [|n IH]; simpl; [done|].
  destruct (ok (S n)) eqn:Hok.
  - intros [= <-]. lia.
  - intros H Hq. destruct (decide (q = S n)) as [->|Hne]; [done|].
    apply IH; [done|lia].
Qed.

Lemma length_char_tokens s : length (char_tokens s) = String.length s.
Proof.
  unfold char_tokens. rewrite length_map.
  induction s as [|c s IH]; simpl; [done|]. by rewrite IH.
Qed.

Lemma length_concat_bound sep l b :
  Forall (fun x => (String.length x <= b)%nat) l ->
  (String.length (String.concat sep l) <= (b + String.length sep) * length l)%nat.
Proof.
  induction 1 as [|x l Hx Hl IH]; [simpl; lia|].
  destruct l as [|y l]; [simpl in *; lia|].
  change (String.concat sep (x :: y :: l)) with (x +:+ sep +:+ String.concat sep (y :: l)).
  rewrite !length_append. simpl length in *. lia.
Qed.

Section CharacterSections.

(** Sections of a text whose tokens are its characters, for a budget of
    [B] characters. *)
Context (B : nat) (division_point model : string).
Hypothesis budget_positive : (1 <= B)%nat.

Let cut := Utilities.cut_point (fun _ => char_tokens) (Z.of_nat B) division_point model.
Let sections := Utilities.split_loop (fun _ => char_tokens) (Z.of_nat B) division_point model.

Lemma fits_characters rest p :
  Utilities.fits (fun _ => char_tokens) (Z.of_nat B) model rest p = true <->
  (p `min` String.length rest <= B)%nat.
Proof.
  unfold Utilities.fits, len. rewrite length_char_tokens, length_take, Z.leb_le. lia.
Qed.

(** Two consecutive cuts of an oversized text span more than the budget. *)
Lemma consecutive_cuts rest :
  (B < String.length rest)%nat ->
  (B < String.length (Utilities.drop (cut rest) rest))%nat ->
  (B < cut rest + cut (Utilities.drop (cut rest) rest))%nat.
Proof.
  intros Hbig Hbig'.
  set (p := cut rest) in *. set (rest' := Utilities.drop p rest) in *.
  assert (rest <> EmptyString) as Hne by (intros ->; simpl in Hbig; lia).
  assert (rest' <> EmptyString) as Hne'
    by (intros Heq; rewrite Heq in Hbig'; simpl in Hbig'; lia).
  pose proof (cut_point_range (fun _ => char_tokens) (Z.of_nat B) division_point model
                rest Hne) as Hp. fold cut in Hp. fold p in Hp.
  pose proof (cut_point_range (fun _ => char_tokens) (Z.of_nat B) division_point model
                rest' Hne') as Hp'. fold cut in Hp'.
  assert (String.length rest' = String.length rest - p)%nat as Hlen'
    by apply length_drop.
  destruct (decide (B < p + cut rest')%nat) as [|Hsmall]; [done|]. exfalso.
  unfold cut at 1, Utilities.cut_point in Hsmall.
  unfold cut, Utilities.cut_point in Hp'.
  destruct (Utilities.last_position
              (fun q => Utilities.fits (fun _ => char_tokens) (Z.of_nat B) model rest' q
                        && Utilities.at_boundary division_point rest' q)
              (String.length rest')) as [p'|] eqn:H1.
  - (* the second cut is at a boundary: so is the same position seen from [rest] *)
    apply last_position_Some in H1 as [_ [Hfit' Hb']%andb_true_iff].
    assert (Utilities.fits (fun _ => char_tokens) (Z.of_nat B) model rest (p + p')
            && Utilities.at_boundary division_point rest (p + p') = true) as Hok.
    { apply andb_true_iff. split; [apply fits_characters; lia|].
      unfold Utilities.at_boundary in *. apply andb_true_iff in Hb' as [Hd He].
      apply andb_true_iff. split; [done|].
      rewrite take_add. by apply ends_with_append. }
    unfold p, cut, Utilities.cut_point in Hok, Hsmall, Hp, Hlen'.
    destruct (Utilities.last_position
                (fun q => Utilities.fits (fun _ => char_tokens) (Z.of_nat B) model rest q
                          && Utilities.at_boundary division_point rest q)
                (String.length rest)) as [p0|] eqn:H0.
    + rewrite (last_position_largest _ _ p0 (p0 + p') H0) in Hok by lia. done.
    + rewrite (last_position_None _ (String.length rest) _ H0) in Hok; [done|].
      destruct (Utilities.last_position _ (String.length rest)); lia.
  - destruct (Utilities.last_position
                (Utilities.fits (fun _ => char_tokens) (Z.of_nat B) model rest')
                (String.length rest')) as [p'|] eqn:H2.
    + (* the second cut is a hard cut: it is at the budget *)
      assert (Utilities.fits (fun _ => char_tokens) (Z.of_nat B) model rest' B = true)
        as HB by (apply fits_characters; lia).
      destruct (decide (p' < B)%nat) as [Hlt|]; [|lia].
      rewrite (last_position_largest _ _ p' B H2) in HB by lia. done.
    + assert (Utilities.fits (fun _ => char_tokens) (Z.of_nat B) model rest' 1 = true)
        as H1' by (apply fits_characters; lia).
      rewrite (last_position_None _ (String.length rest') 1 H2) in H1' by lia. done.
Qed.

(** The number of sections is at most about twice the length over the
    budget. *)
Lemma sections_count steps rest :
  (String.length rest <= steps)%nat ->
  ((B + 1) * length (sections steps rest) <= 2 * String.length rest + (B + 1))%nat.
Proof.
  revert rest. induction (lt_wf steps) as [steps _ IH]. intros rest Hlen.
  destruct steps as [|steps]; [simpl; lia|].
  unfold sections. simpl.
  destruct (String.eqb rest EmptyString) eqn:He; [simpl; lia|].
  destruct (len (char_tokens rest) <=? Z.of_nat B) eqn:Hfit; [simpl; lia|].
  apply Z.leb_gt in Hfit. unfold len in Hfit. rewrite length_char_tokens in Hfit.
  apply String.eqb_neq in He.
  fold cut. set (p := cut rest). set (rest' := Utilities.drop p rest).
  pose proof (cut_point_range (fun _ => char_tokens) (Z.of_nat B) division_point model
                rest He) as Hp. fold cut in Hp. fold p in Hp.
  assert (String.length rest' = String.length rest - p)%nat as Hlen'
    by apply length_drop.
  destruct steps as [|steps]; [simpl; lia|].
  simpl.
  destruct (String.eqb rest' EmptyString) eqn:He'; [simpl; lia|].
  destruct (len (char_tokens rest') <=? Z.of_nat B) eqn:Hfit'; [simpl; lia|].
  apply Z.leb_gt in Hfit'. unfold len in Hfit'. rewrite length_char_tokens in Hfit'.
  apply String.eqb_neq in He'.
  fold cut. set (p' := cut rest'). set (rest'' := Utilities.drop p' rest').
  pose proof (cut_point_range (fun _ => char_tokens) (Z.of_nat B) division_point model
                rest' He') as Hp'. fold cut in Hp'. fold p' in Hp'.
  assert (String.length rest'' = String.length rest' - p')%nat as Hlen''
    by apply length_drop.
  pose proof (consecutive_cuts rest ltac:(lia) ltac:(fold p; fold rest'; lia)) as Hpair.
  fold p in Hpair. fold rest' in Hpair. fold p' in Hpair.
  pose proof (IH steps ltac:(lia) rest'' ltac:(lia)) as Hrec.
  unfold sections in Hrec. simpl. lia.
Qed.

End CharacterSections.

(** C7: an oversized text, cut by the section splitter and put together
    again in order, is the text itself. *)
Theorem split_then_rejoin_is_identity (enc : string -> string -> list Z) (t : string)
    (p : SummarizationParameters) (division_point model : string) :
  summary_input_size p < len (enc model t) ->
  rejoin (Utilities.split_text_into_sections enc t (summary_input_size p)
            division_point model) = t.
Proof. intros _. apply split_text_into_sections_lossless. Qed.

Lemma split_then_rejoin_is_identity_witness :
  summary_input_size small_budget < len (char_tokens two_sentences) /\
  rejoin (Utilities.split_text_into_sections (fun _ => char_tokens) two_sentences
            (summary_input_size small_budget) "." model_name) = two_sentences.
Proof.
  assert (summary_input_size small_budget < len (char_tokens two_sentences)) as H
    by (vm_compute; reflexivity).
  split; [exact H|].
  exact (split_then_rejoin_is_identity (fun _ => char_tokens) two_sentences small_budget
           "." model_name H).
Defined.

Example split_two_sentences :
  Utilities.split_text_into_sections (fun _ => char_tokens) two_sentences 50 "." model_name
  = ["This sentence has more than twenty characters.";
     " So has this second sentence of the text."].
Proof. vm_compute. reflexivity. Qed.

(** ** The synthesis step *)

(** C8: when the call is not in the store, [synthesize_summaries] checks
    the prompt built from the joined summaries against 8192 tokens before
    anything is sent.  Above the bound the assertion fails: the call
    raises [AssertionError] and the world is untouched (no request, no
    retry, nothing stored).  Within the bound exactly one request is sent,
    without sleep or retry: its completion is returned (and stored), its
    failure is raised. *)
Theorem synthesize_summaries_asserts_budget (E : Env) (summaries : list string)
    (model : string) (w : World) :
  cache_json w !! SynthesizeKey summaries model = None ->
  let tokens := num_tokens_from_messages E (synthesis_messages summaries) model_name in
  (8192 < tokens ->
   synthesize_summaries E summaries model w
     = Some (Raised (mkExn AssertionError None), w)) /\
  (tokens <= 8192 ->
   synthesize_summaries E summaries model w =
     Some (match chat_completions_create E (api_calls w) model
                   (synthesis_messages summaries) with
           | Completed r =>
               (Returned (content r),
                cache_put (SynthesizeKey summaries model) (content r) (count_call w))
           | Failed e => (Raised e, count_call w)
           end) /\
   api_calls (world_after (synthesize_summaries E summaries model w)) = S (api_calls w) /\
   slept (world_after (synthesize_summaries E summaries model w)) = slept w).
Proof.
  intros Hk tokens. unfold synthesize_summaries.
  rewrite (memoize_to_file_miss _ _ _ Hk).
  unfold total, synthesize_summaries_body. fold tokens.
  split; intros Hb.
  - destruct (tokens <=? 8192) eqn:Ht; [apply Z.leb_le in Ht; lia|done].
  - destruct (tokens <=? 8192) eqn:Ht; [|apply Z.leb_gt in Ht; lia].
    by destruct (chat_completions_create E (api_calls w) model _).
Qed.

Lemma synthesize_summaries_asserts_budget_witness :
  let E := demo_env (answers "The merged summary.") half in
  let summaries := ["[[[First.]]]"; "[[[Second.]]]"] in
  cache_json initial_world !! SynthesizeKey summaries "gpt-4" = None /\
  let tokens := num_tokens_from_messages E (synthesis_messages summaries) model_name in
  (8192 < tokens ->
   synthesize_summaries E summaries "gpt-4" initial_world
     = Some (Raised (mkExn AssertionError None), initial_world)) /\
  (tokens <= 8192 ->
   synthesize_summaries E summaries "gpt-4" initial_world =
     Some (match chat_completions_create E (api_calls initial_world) "gpt-4"
                   (synthesis_messages summaries) with
           | Completed r =>
               (Returned (content r),
                cache_put (SynthesizeKey summaries "gpt-4") (content r)
                  (count_call initial_world))
           | Failed e => (Raised e, count_call initial_world)
           end) /\
   api_calls (world_after (synthesize_summaries E summaries "gpt-4" initial_world))
     = S (api_calls initial_world) /\
   slept (world_after (synthesize_summaries E summaries "gpt-4" initial_world))
     = slept initial_world).
Proof.
  intros E summaries.
  assert (cache_json initial_world !! SynthesizeKey summaries "gpt-4" = None) as Hk
    by apply lookup_empty.
  split; [exact Hk|].
  exact (synthesize_summaries_asserts_budget E summaries "gpt-4" initial_world Hk).
Defined.

Example synthesis_messages_two :
  synthesis_messages ["[[[First.]]]"; "[[[Second.]]]  "] =
  [mkMessage "user"
     ("A less powerful GPT model generated 2 summaries of a book." +:+ newline +:+ newline
      +:+ "Because of the way that the summaries are generated, they may not be perfect. Please review them"
      +:+ newline
      +:+ "and synthesize them into a single more detailed summary that you think is best."
      +:+ newline +:+ newline
      +:+ "The summaries are as follows: Summary 1: [[[First.]]]" +:+ newline +:+ newline
      +:+ "Summary 2: [[[Second.]]]")].
Proof. vm_compute. reflexivity. Qed.

Example synthesize_long_summary_fails :
  num_tokens_from_messages (demo_env (answers "The merged summary.") half)
    (synthesis_messages [long_summary]) model_name = 9290 /\
  synthesize_summaries (demo_env (answers "The merged summary.") half) [long_summary]
    "gpt-4" initial_world
  = Some (Raised (mkExn AssertionError None), initial_world).
Proof. vm_compute. split; reflexivity. Qed.

Example synthesize_two_summaries :
  let E := demo_env (answers "The merged summary.") half in
  num_tokens_from_messages E (synthesis_messages ["[[[First.]]]"; "[[[Second.]]]"]) model_name
    = 328 /\
  returned (synthesize_summaries E ["[[[First.]]]"; "[[[Second.]]]"] "gpt-4" initial_world)
    = Some "The merged summary." /\
  api_calls (world_after
               (synthesize_summaries E ["[[[First.]]]"; "[[[Second.]]]"] "gpt-4"
                  initial_world)) = 1%nat.
Proof. vm_compute. done. Qed.

(** ** Termination *)

Section Termination.

Context (E : Env) (p : SummarizationParameters) (dp m : string).

(** A text within the input size is settled by one of the two terminal
    branches (or by the store): depth 1 is enough. *)
Lemma summarize_fitting_text_finishes t w :
  token_count E t <= summary_input_size p ->
  exists r, summarize E 1 t p dp m w = Some r.
Proof.
  intros Hfit. rewrite summarize_eq. unfold Utilities.memoize_to_file.
  destruct (cache_json w !! SummarizeKey t p dp m); [by eexists|].
  unfold summarize_body.
  destruct (token_count E t <=? target_summary_size p); [by eexists|].
  destruct (token_count E t <=? summary_input_size p) eqn:H2;
    [|apply Z.leb_gt in H2; lia].
  unfold bind, total, ret.
  destruct (gpt_summarize E t (target_summary_size p) w) as [[v|e] w1]; by eexists.
Qed.

Lemma summarize_oversized_eq depth t w :
  cache_json w !! SummarizeKey t p dp m = None ->
  target_summary_size p < token_count E t ->
  summary_input_size p < token_count E t ->
  summarize E (S depth) t p dp m w =
  match summarize_sections E p dp m depth t w with
  | Some (Returned summaries, w1) =>
      match summarize E depth (String.concat (newline +:+ newline) summaries) p dp m w1 with
      | Some (Returned v, w2) => Some (Returned v, cache_put (SummarizeKey t p dp m) v w2)
      | Some (Raised e, w2) => Some (Raised e, w2)
      | None => None
      end
  | Some (Raised e, w1) => Some (Raised e, w1)
  | None => None
  end.
Proof.
  intros Hk H1 H2. rewrite summarize_eq, (memoize_to_file_miss _ _ _ Hk).
  unfold summarize_body, summarize_sections, bind.
  destruct (token_count E t <=? target_summary_size p) eqn:Hb1;
    [apply Z.leb_le in Hb1; lia|].
  destruct (token_count E t <=? summary_input_size p) eqn:Hb2;
    [apply Z.leb_le in Hb2; lia|].
  by destruct (for_each _ _ w) as [[[ss|e] w1]|].
Qed.

Context (Inv : World -> Prop).

Hypothesis sections_fit :
  forall t,
    summary_input_size p < token_count E t ->
    Forall (fun x => token_count E x <= summary_input_size p)
      (splitter E t (summary_input_size p) dp m).

Hypothesis rounds_shrink :
  forall t w summaries w',
    Inv w ->
    target_summary_size p < token_count E t ->
    summary_input_size p < token_count E t ->
    summarize_sections E p dp m 1 t w = Some (Returned summaries, w') ->
    Inv w' /\
    token_count E (String.concat (newline +:+ newline) summaries) < token_count E t.

Lemma summarize_finishes_by_rounds n :
  forall t w,
    Z.to_nat (token_count E t) = n ->
    Inv w ->
    exists depth r, summarize E depth t p dp m w = Some r.
Proof.
  induction (lt_wf n) as [n _ IH]. intros t w Hn HInv.
  destruct (decide (token_count E t <= summary_input_size p)) as [Hfit|Hbig].
  { exists 1%nat. by apply summarize_fitting_text_finishes. }
  destruct (cache_json w !! SummarizeKey t p dp m) as [v|] eqn:Hk.
  { exists 1%nat. eexists. rewrite summarize_eq. by apply memoize_to_file_hit. }
  destruct (decide (token_count E t <= target_summary_size p)) as [Hshort|Hlong].
  { exists 1%nat. eexists. rewrite summarize_eq, (memoize_to_file_miss _ _ _ Hk).
    unfold summarize_body.
    destruct (token_count E t <=? target_summary_size p) eqn:Hb; [done|].
    apply Z.leb_gt in Hb. lia. }
  assert (exists r, summarize_sections E p dp m 1 t w = Some r) as [[out1 w1] Hsec].
  { apply for_each_finishes.
    eapply Forall_impl; [apply sections_fit; lia|].
    intros x Hx w0. by apply summarize_fitting_text_finishes. }
  destruct out1 as [summaries|e].
  - destruct (rounds_shrink t w summaries w1 HInv ltac:(lia) ltac:(lia) Hsec)
      as [HInv1 Hless].
    destruct (IH (Z.to_nat (token_count E (String.concat (newline +:+ newline) summaries)))
                ltac:(unfold token_count, len in *; lia) _ w1 eq_refl HInv1)
      as (dJ & rJ & HJ).
    exists (S (dJ `max` 1)).
    rewrite summarize_oversized_eq by (done || lia).
    assert (summarize_sections E p dp m (dJ `max` 1) t w = Some (Returned summaries, w1))
      as ->.
    { unfold summarize_sections in *.
      eapply for_each_mono; [|exact Hsec].
      intros x w0 r. apply summarize_mono. lia. }
    rewrite (summarize_mono E dJ (dJ `max` 1) _ p dp m w1 rJ ltac:(lia) HJ).
    destruct rJ as [[v|e] w2]; by eexists.
  - exists 2%nat. rewrite summarize_oversized_eq by (done || lia).
    rewrite Hsec. by eexists.
Qed.

End Termination.

(** C6 (as amended): [summarize] reaches a terminal branch after finitely
    many recursive calls for every text, from every world that satisfies
    an invariant [Inv], provided that (1) the splitter returns sections
    within the input size and (2) in every round of the third branch the
    summaries of the sections, joined by a blank line, have strictly fewer
    tokens than the text that was split (and the round keeps [Inv]).
    Termination means that some depth of nested calls suffices for the
    call to return or raise. *)
Theorem summarize_terminates_when_rounds_shrink (E : Env) (p : SummarizationParameters)
    (dp m : string) (Inv : World -> Prop) :
  (forall t,
     summary_input_size p < token_count E t ->
     Forall (fun x => token_count E x <= summary_input_size p)
       (splitter E t (summary_input_size p) dp m)) ->
  (forall t w summaries w',
     Inv w ->
     target_summary_size p < token_count E t ->
     summary_input_size p < token_count E t ->
     summarize_sections E p dp m 1 t w = Some (Returned summaries, w') ->
     Inv w' /\
     token_count E (String.concat (newline +:+ newline) summaries) < token_count E t) ->
  forall t w,
    Inv w ->
    exists depth r, summarize E depth t p dp m w = Some r.
Proof.
  intros Hfit Hshrink t w HInv.
  by apply (summarize_finishes_by_rounds E p dp m Inv Hfit Hshrink
              (Z.to_nat (token_count E t))).
Qed.

Section HelpfulRun.

Let E := helpful_env.

Lemma helpful_token_count s : token_count E s = Z.of_nat (String.length s).
Proof. unfold token_count, len. simpl. by rewrite length_char_tokens. Qed.

Lemma helpful_sections_fit t :
  summary_input_size roomy_budget < token_count E t ->
  Forall (fun x => token_count E x <= summary_input_size roomy_budget)
    (splitter E t (summary_input_size roomy_budget) "." model_name).
Proof.
  intros _.
  apply (split_loop_within_budget (fun _ => char_tokens) (summary_input_size roomy_budget)
           "." model_name).
  intros c. unfold len. rewrite length_char_tokens. simpl. lia.
Qed.

Lemma helpful_section_summary x w v w' :
  stores_short_values w ->
  summarize E 1 x roomy_budget "." model_name w = Some (Returned v, w') ->
  (String.length v <= 16)%nat /\ stores_short_values w'.
Proof.
  intros HInv. rewrite summarize_eq. unfold Utilities.memoize_to_file.
  destruct (cache_json w !! SummarizeKey x roomy_budget "." model_name) as [v0|] eqn:Hk.
  { intros [= <- <-]. split; [by apply (HInv _ _ Hk)|done]. }
  assert (forall u w0, (String.length u <= 16)%nat -> stores_short_values w0 ->
            stores_short_values (cache_put (SummarizeKey x roomy_budget "." model_name) u w0))
    as Hput.
  { intros u w0 Hu H0 k v1. simpl.
    destruct (decide (SummarizeKey x roomy_budget "." model_name = k)) as [<-|Hne].
    - rewrite lookup_insert_eq. by intros [= <-].
    - rewrite lookup_insert_ne by done. apply H0. }
  unfold summarize_body. rewrite helpful_token_count.
  destruct (Z.of_nat (String.length x) <=? target_summary_size roomy_budget) eqn:H1.
  { intros [= <- <-]. apply Z.leb_le in H1. simpl in H1.
    split; [lia|]. apply Hput; [lia|done]. }
  destruct (Z.of_nat (String.length x) <=? summary_input_size roomy_budget) eqn:H2.
  { unfold bind, total, ret, gpt_summarize.
    rewrite gpt_summarize_loop_eq. simpl.
    intros [= <- <-]. split; [simpl; lia|]. apply Hput; [simpl; lia|].
    intros k v1 Hv. simpl in Hv. by apply (HInv k v1). }
  unfold bind.
  destruct (for_each _ _ w) as [[[ss|e] w1]|]; done.
Qed.

Lemma helpful_sections_summaries l w summaries w' :
  stores_short_values w ->
  for_each (fun x => summarize E 1 x roomy_budget "." model_name) l w
    = Some (Returned summaries, w') ->
  Forall (fun v => (String.length v <= 16)%nat) summaries /\ stores_short_values w'.
Proof.
  revert w summaries w'. induction l as [|x l IH]; intros w summaries w' HInv Hl.
  { injection Hl as <- <-. done. }
  apply for_each_cons_returned in Hl as (v & w1 & vs & Hx & Hl & ->).
  destruct (helpful_section_summary _ _ _ _ HInv Hx) as [Hv HInv1].
  destruct (IH _ _ _ HInv1 Hl) as [Hvs HInv2].
  split; [by constructor|done].
Qed.

Lemma helpful_rounds_shrink t w summaries w' :
  stores_short_values w ->
  target_summary_size roomy_budget < token_count E t ->
  summary_input_size roomy_budget < token_count E t ->
  summarize_sections E roomy_budget "." model_name 1 t w = Some (Returned summaries, w') ->
  stores_short_values w' /\
  token_count E (String.concat (newline +:+ newline) summaries) < token_count E t.
Proof.
  intros HInv _ Hbig Hsec. unfold summarize_sections in Hsec.
  destruct (helpful_sections_summaries _ _ _ _ HInv Hsec) as [Hvs HInv'].
  split; [done|].
  pose proof (for_each_length _ _ _ _ _ Hsec) as Hn.
  pose proof (length_concat_bound (newline +:+ newline) summaries 16 Hvs) as Hjoin.
  pose proof (sections_count 100 "." model_name ltac:(lia) (String.length t) t ltac:(lia))
    as Hcount.
  rewrite !helpful_token_count in *. simpl in Hbig.
  change (splitter E t (summary_input_size roomy_budget) "." model_name)
    with (Utilities.split_loop (fun _ => char_tokens) (Z.of_nat 100) "." model_name
            (String.length t) t) in Hn.
  rewrite <- Hn in Hcount. simpl String.length in Hjoin. lia.
Qed.

Lemma initial_world_stores_short_values : stores_short_values initial_world.
Proof. intros k v Hk. simpl in Hk. by rewrite lookup_empty in Hk. Qed.

End HelpfulRun.

Lemma summarize_terminates_when_rounds_shrink_witness :
  (forall t,
     summary_input_size roomy_budget < token_count helpful_env t ->
     Forall (fun x => token_count helpful_env x <= summary_input_size roomy_budget)
       (splitter helpful_env t (summary_input_size roomy_budget) "." model_name)) /\
  (forall t w summaries w',
     stores_short_values w ->
     target_summary_size roomy_budget < token_count helpful_env t ->
     summary_input_size roomy_budget < token_count helpful_env t ->
     summarize_sections helpful_env roomy_budget "." model_name 1 t w
       = Some (Returned summaries, w') ->
     stores_short_values w' /\
     token_count helpful_env (String.concat (newline +:+ newline) summaries)
     < token_count helpful_env t) /\
  stores_short_values initial_world /\
  exists depth r,
    summarize helpful_env depth three_sentences roomy_budget "." model_name initial_world
      = Some r.
Proof.
  split; [exact helpful_sections_fit|].
  split; [exact helpful_rounds_shrink|].
  split; [exact initial_world_stores_short_values|].
  exact (summarize_terminates_when_rounds_shrink helpful_env roomy_budget "." model_name
           stores_short_values helpful_sections_fit helpful_rounds_shrink
           three_sentences initial_world initial_world_stores_short_values).
Defined.

Example summarize_three_sentences :
  token_count helpful_env three_sentences = 135 /\
  splitter helpful_env three_sentences 100 "." model_name
    = ["The first sentence of the text is a fairly long one.";
       " The second sentence is not much shorter than it. The third sentence ends the text."]
    /\
  returned (summarize helpful_env 2 three_sentences roomy_budget "." model_name
              initial_world) = Some "[[[A summary.]]]" /\
  api_calls (world_after (summarize helpful_env 2 three_sentences roomy_budget "."
                            model_name initial_world)) = 3%nat.
Proof. vm_compute. done. Qed.

(** ** A run that never finishes *)

Lemma looping_sections_eq :
  splitter stubborn_env looping_text (summary_input_size small_budget) "." model_name
  = looping_sections.
Proof. vm_compute. reflexivity. Qed.

Lemma looping_text_oversized :
  target_summary_size small_budget < token_count stubborn_env looping_text /\
  summary_input_size small_budget < token_count stubborn_env looping_text.
Proof. vm_compute. done. Qed.

Lemma looping_sections_sized x :
  x ∈ looping_sections ->
  (token_count stubborn_env x <=? target_summary_size small_budget) = false /\
  (token_count stubborn_env x <=? summary_input_size small_budget) = true /\
  x <> looping_text.
Proof.
  intros Hx. apply list_elem_of_In in Hx. simpl in Hx.
  destruct Hx as [<-|[<-|[]]]; (split; [|split]); try (vm_compute; reflexivity);
    discriminate.
Qed.

Lemma looping_join :
  String.concat (newline +:+ newline) [wrapped_answer; wrapped_answer] = looping_text.
Proof. vm_compute. reflexivity. Qed.

Lemma stubborn_gpt_summarize x target w :
  gpt_summarize stubborn_env x target w
  = (Returned wrapped_answer, add_tokens 7 (count_call w)).
Proof. unfold gpt_summarize. by rewrite gpt_summarize_loop_eq. Qed.

Lemma looping_section_step depth x w :
  loop_invariant w ->
  x ∈ looping_sections ->
  exists w1,
    summarize stubborn_env (S depth) x small_budget "." model_name w
      = Some (Returned wrapped_answer, w1) /\
    loop_invariant w1.
Proof.
  intros [HT Hsec] Hx.
  destruct (looping_sections_sized x Hx) as (H1 & H2 & Hne).
  rewrite summarize_eq. unfold Utilities.memoize_to_file.
  destruct (Hsec x Hx) as [Hk|Hk]; rewrite Hk.
  { unfold summarize_body. rewrite H1, H2. unfold bind, total, ret.
    rewrite stubborn_gpt_summarize. eexists. split; [reflexivity|].
    split; simpl.
    - rewrite lookup_insert_ne; [done|]. intros [= ->]. done.
    - intros y Hy.
      destruct (decide (x = y)) as [<-|Hxy].
      + right. apply lookup_insert_eq.
      + rewrite lookup_insert_ne; [by apply Hsec|]. intros [= ->]. done. }
  exists w. by split.
Qed.

Lemma looping_text_never_finishes depth w :
  loop_invariant w ->
  summarize stubborn_env depth looping_text small_budget "." model_name w = None.
Proof.
  revert w. induction depth as [|depth IH]; intros w HInv; [done|].
  destruct looping_text_oversized as [H1 H2].
  rewrite summarize_oversized_eq by (done || apply HInv).
  unfold summarize_sections. rewrite looping_sections_eq.
  destruct depth as [|depth]; [done|].
  destruct (looping_section_step depth _ w HInv ltac:(by left)) as (w1 & Hs1 & HInv1).
  destruct (looping_section_step depth _ w1 HInv1 ltac:(by right; left))
    as (w2 & Hs2 & HInv2).
  unfold looping_sections.
  rewrite (for_each_two
             (fun x => summarize stubborn_env (S depth) x small_budget "." model_name)
             _ _ w wrapped_answer w1 wrapped_answer w2 Hs1 Hs2), looping_join.
  by rewrite (IH w2 HInv2).
Qed.

(** C6, the claim as stated fails: the provider answers every request with
    a 30-token text although 10 tokens were asked for.  The input is two
    such answers joined by a blank line (74 tokens, input size 50); it is
    cut into two sections, each section is summarized into the same answer
    again, and the joined summaries are the input itself: the recursive
    call repeats the call it came from, and no depth of nesting lets
    [summarize] return or raise.  (An interpreter ends such a nesting with
    its recursion limit; no terminal branch is reached either way.) *)
Lemma summarize_can_recurse_forever :
  diverges
    (fun depth => summarize stubborn_env depth looping_text small_budget "." model_name)
    initial_world.
Proof.
  intros depth. apply looping_text_never_finishes.
  split; [apply lookup_empty|]. intros x _. left. apply lookup_empty.
Qed.

(** ** Further properties of [gpt_summarize] *)

Lemma gpt_summarize_loop_effort (E : Env) (tries : nat) (text : string) (target : Z)
    (w : World) :
  (tries < MAX_ATTEMPTS)%nat ->
  exists (k : nat) (naps : list float),
    (tries + k < MAX_ATTEMPTS)%nat /\
    length naps = k /\
    api_calls (gpt_summarize_loop E tries text target w).2 = S (api_calls w + k) /\
    random_draws (gpt_summarize_loop E tries text target w).2 = (random_draws w + k)%nat /\
    slept (gpt_summarize_loop E tries text target w).2 = (naps ++ slept w)%list.
Proof.
  funelim (gpt_summarize_loop E tries text target w); intros Hlt;
    try (exists 0%nat, []; simpl; repeat split; lia).
  assert (S tries < MAX_ATTEMPTS)%nat as Hlt' by lia.
  destruct (H Hlt') as (k & naps & Hk & Hlen & Ha & Hd & Hs).
  exists (S k), (naps ++ [sleep_duration (random_random E (random_draws w)) (S tries)])%list.
  rewrite Ha, Hd, Hs. simpl.
  repeat split; [lia| |lia|lia|by rewrite <- app_assoc].
  rewrite length_app. simpl. lia.
Qed.

(** X1: one invocation of [gpt_summarize] sends at least one and at most
    [MAX_ATTEMPTS] requests, and between two consecutive requests it takes
    exactly one random draw and one sleep: with [k + 1] requests there are
    [k] draws and [k] new sleeps, put before the earlier ones. *)
Theorem gpt_summarize_sleeps_between_requests (E : Env) (text : string) (target : Z)
    (w : World) :
  exists (k : nat) (naps : list float),
    (k < MAX_ATTEMPTS)%nat /\
    length naps = k /\
    api_calls (gpt_summarize E text target w).2 = S (api_calls w + k) /\
    random_draws (gpt_summarize E text target w).2 = (random_draws w + k)%nat /\
    slept (gpt_summarize E text target w).2 = (naps ++ slept w)%list.
Proof.
  destruct (gpt_summarize_loop_effort E 0 text target w) as (k & naps & H);
    [unfold MAX_ATTEMPTS; lia|].
  exists k, naps. exact H.
Qed.

(** X2: an error that is not of one of the three caught classes, or that
    carries [should_retry = False], ends the invocation at the attempt it
    occurs in, whatever the number of attempts made before: it is raised
    after that request, with no draw and no sleep. *)
Theorem gpt_summarize_loop_raises_at_once (E : Env) (tries : nat) (text : string)
    (target : Z) (w : World) (e : PyExn) :
  chat_completions_create E (api_calls w) model_name
    (summarization_prompt_messages E text target) = Failed e ->
  caught e = false \/ flagged_no_retry e = true ->
  gpt_summarize_loop E tries text target w = (Raised e, count_call w).
Proof.
  intros Hcall Hstop. rewrite gpt_summarize_loop_eq, Hcall.
  destruct (caught e); [|done].
  destruct (decide (MAX_ATTEMPTS <= S tries)%nat); [done|].
  destruct Hstop as [Hstop| ->]; done.
Qed.

Lemma gpt_summarize_loop_raises_at_once_witness :
  let E := demo_env (fun _ _ _ => Failed (mkExn RateLimitError (Some false))) half in
  let e := mkExn RateLimitError (Some false) in
  chat_completions_create E (api_calls initial_world) model_name
    (summarization_prompt_messages E "A text to summarize." 10) = Failed e /\
  (caught e = false \/ flagged_no_retry e = true) /\
  gpt_summarize_loop E 0 "A text to summarize." 10 initial_world
    = (Raised e, count_call initial_world).
Proof.
  intros E e.
  assert (chat_completions_create E (api_calls initial_world) model_name
            (summarization_prompt_messages E "A text to summarize." 10) = Failed e)
    as Hcall by reflexivity.
  assert (caught e = false \/ flagged_no_retry e = true) as Hstop by (right; reflexivity).
  split; [exact Hcall|]. split; [exact Hstop|].
  exact (gpt_summarize_loop_raises_at_once E 0 "A text to summarize." 10 initial_world e
           Hcall Hstop).
Defined.

(** ** Further properties of [summarize] *)

Lemma for_each_returns {A B} (R : World -> World -> Prop) (f : A -> Run B) (l : list A) :
  (forall w, R w w) ->
  (forall w1 w2 w3, R w1 w2 -> R w2 w3 -> R w1 w3) ->
  (forall x w out w', f x w = Some (out, w') -> R w w' /\ exists y, out = Returned y) ->
  forall w out w', for_each f l w = Some (out, w') -> R w w' /\ exists ys, out = Returned ys.
Proof.
  intros Hrefl Htrans Hf. induction l as [|x l IH]; intros w out w'; simpl.
  - intros [= <- <-]. split; [done|by eexists].
  - unfold bind, ret. destruct (f x w) as [[out1 w1]|] eqn:Hx; [|done].
    destruct (Hf _ _ _ _ Hx) as [HR1 [y ->]].
    destruct (for_each f l w1) as [[out2 w2]|] eqn:Hl; [|done].
    destruct (IH _ _ _ Hl) as [HR2 [ys ->]].
    intros [= <- <-]. split; [by eapply Htrans|by eexists].
Qed.

Section QuietRuns.

Context (E : Env) (p : SummarizationParameters).
Context (R : World -> World -> Prop).

Hypothesis R_refl : forall w, R w w.
Hypothesis R_trans : forall w1 w2 w3, R w1 w2 -> R w2 w3 -> R w1 w3.
Hypothesis R_put : forall k v w, R w (cache_put k v w).
Hypothesis R_gpt_summarize :
  forall t w,
    target_summary_size p < token_count E t <= summary_input_size p ->
    R w (gpt_summarize E t (target_summary_size p) w).2 /\
    exists v, (gpt_summarize E t (target_summary_size p) w).1 = Returned v.

Lemma summarize_returns_under depth t dp m w out w' :
  summarize E depth t p dp m w = Some (out, w') ->
  R w w' /\ exists v, out = Returned v.
Proof.
  revert t w out w'. induction depth as [|d IH]; intros t w out w'; [done|].
  simpl. unfold Utilities.memoize_to_file.
  destruct (cache_json w !! SummarizeKey t p dp m);
    [intros [= <- <-]; split; [done|by eexists]|].
  unfold summarize_body.
  destruct (token_count E t <=? target_summary_size p) eqn:H1.
  { intros [= <- <-]. split; [done|by eexists]. }
  apply Z.leb_gt in H1.
  destruct (token_count E t <=? summary_input_size p) eqn:H2.
  { apply Z.leb_le in H2. unfold bind, total, ret.
    destruct (R_gpt_summarize t w (conj H1 H2)) as [HR [v Hv]].
    destruct (gpt_summarize E t (target_summary_size p) w) as [out1 w1].
    simpl in HR, Hv. subst out1. intros [= <- <-].
    split; [by eapply R_trans|by eexists]. }
  unfold bind.
  destruct (for_each _ _ w) as [[out1 w1]|] eqn:Hl; [|done].
  destruct (for_each_returns R _ _ R_refl R_trans (fun x => IH x) _ _ _ Hl)
    as [HR1 [ss ->]].
  destruct (summarize E d _ p dp m w1) as [[out2 w2]|] eqn:Hj; [|done].
  destruct (IH _ _ _ _ Hj) as [HR2 [v ->]].
  intros [= <- <-]. split; [|by eexists].
  eapply R_trans; [exact HR1|]. eapply R_trans; [exact HR2|]. done.
Qed.

End QuietRuns.

(** X3: with a budget whose input size does not exceed its target size
    the second branch of [summarize] cannot be reached: whatever the text
    and the store, a call that finishes returns a value, and it has sent no
    request, left [actual_tokens] alone, drawn no number and not slept. *)
Theorem summarize_without_room_sends_nothing (E : Env) (depth : nat) (t : string)
    (p : SummarizationParameters) (dp m : string) (w w' : World) (out : Outcome string) :
  summary_input_size p <= target_summary_size p ->
  summarize E depth t p dp m w = Some (out, w') ->
  (exists v, out = Returned v) /\
  api_calls w' = api_calls w /\
  actual_tokens w' = actual_tokens w /\
  random_draws w' = random_draws w /\
  slept w' = slept w.
Proof.
  intros Hp Hrun.
  destruct (summarize_returns_under E p same_effects) with (5 := Hrun) as [HR Hv].
  - done.
  - intros w1 w2 w3 (H1 & H2 & H3 & H4) (H5 & H6 & H7 & H8).
    repeat split; congruence.
  - done.
  - intros t0 w0 Hr. lia.
  - done.
Qed.

(** X4: when the provider answers every request with a completion, a call
    of [summarize] that finishes returns a value: it never raises, draws no
    random number and does not sleep. *)
Theorem summarize_never_raises_when_provider_completes (E : Env) (depth : nat)
    (t : string) (p : SummarizationParameters) (dp m : string) (w w' : World)
    (out : Outcome string) :
  always_completes E ->
  summarize E depth t p dp m w = Some (out, w') ->
  (exists v, out = Returned v) /\
  random_draws w' = random_draws w /\
  slept w' = slept w.
Proof.
  intros Hok Hrun.
  destruct (summarize_returns_under E p
              (fun w w' => random_draws w' = random_draws w /\ slept w' = slept w))
    with (5 := Hrun) as [HR Hv].
  - done.
  - intros w1 w2 w3 [H1 H2] [H3 H4]. split; congruence.
  - done.
  - intros t0 w0 _. unfold gpt_summarize. rewrite gpt_summarize_loop_eq.
    destruct (Hok (api_calls w0) model_name
                (summarization_prompt_messages E t0 (target_summary_size p))) as [r ->].
    simpl. split; [done|by eexists].
  - done.
Qed.

Lemma summarize_without_room_sends_nothing_witness :
  let p := mkParams 10 5 in
  let w' := cache_put (SummarizeKey "Short." p "." model_name) "Short." initial_world in
  summary_input_size p <= target_summary_size p /\
  summarize helpful_env 1 "Short." p "." model_name initial_world
    = Some (Returned "Short.", w') /\
  (exists v, Returned "Short." = Returned v) /\
  api_calls w' = api_calls initial_world /\
  actual_tokens w' = actual_tokens initial_world /\
  random_draws w' = random_draws initial_world /\
  slept w' = slept initial_world.
Proof.
  intros p w'.
  assert (summary_input_size p <= target_summary_size p) as Hp by (simpl; lia).
  assert (summarize helpful_env 1 "Short." p "." model_name initial_world
          = Some (Returned "Short.", w')) as Hrun.
  { apply summarize_short; [|vm_compute; discriminate].
    intros v Hv. simpl in Hv. by rewrite lookup_empty in Hv. }
  split; [exact Hp|]. split; [exact Hrun|].
  exact (summarize_without_room_sends_nothing helpful_env 1 "Short." p "." model_name
           initial_world w' (Returned "Short.") Hp Hrun).
Defined.

Lemma helpful_env_always_completes : always_completes helpful_env.
Proof. intros n model messages. by eexists. Qed.

Lemma summarize_never_raises_when_provider_completes_witness :
  let run := summarize helpful_env 1 "A text to summarize." small_budget "." model_name
               initial_world in
  always_completes helpful_env /\
  run = Some (Returned "[[[A summary.]]]", world_after run) /\
  (exists v, Returned "[[[A summary.]]]" = Returned v) /\
  random_draws (world_after run) = random_draws initial_world /\
  slept (world_after run) = slept initial_world.
Proof.
  intros run.
  assert (run = Some (Returned "[[[A summary.]]]", world_after run)) as Hrun
    by (apply returned_run; vm_compute; reflexivity).
  split; [exact helpful_env_always_completes|]. split; [exact Hrun|].
  exact (summarize_never_raises_when_provider_completes helpful_env 1
           "A text to summarize." small_budget "." model_name initial_world
           (world_after run) (Returned "[[[A summary.]]]")
           helpful_env_always_completes Hrun).
Defined.

Lemma failed_request_widen E p e lo hi lo' hi' :
  (lo' <= lo)%nat -> (hi <= hi')%nat ->
  failed_request E p e lo hi -> failed_request E p e lo' hi'.
Proof.
  intros Hlo Hhi (n & text & Hn & Hcall). exists n, text. split; [lia|done].
Qed.

Lemma summarize_requests E (p : SummarizationParameters) depth t dp m w out w' :
  summarize E depth t p dp m w = Some (out, w') ->
  (api_calls w <= api_calls w')%nat /\
  forall e, out = Raised e -> failed_request E p e (api_calls w) (api_calls w').
Proof.
  revert t w out w'. induction depth as [|d IH]; intros t w out w'; [done|].
  simpl. unfold Utilities.memoize_to_file.
  destruct (cache_json w !! SummarizeKey t p dp m);
    [intros [= <- <-]; split; [lia|done]|].
  unfold summarize_body.
  destruct (token_count E t <=? target_summary_size p).
  { intros [= <- <-]. split; [simpl; lia|done]. }
  destruct (token_count E t <=? summary_input_size p).
  { unfold bind, total, ret, gpt_summarize.
    pose proof (gpt_summarize_loop_accounting E 0 t (target_summary_size p) w) as Hacc.
    destruct (gpt_summarize_loop E 0 t (target_summary_size p) w) as [[v|e] w1];
      destruct Hacc as (_ & Hn & Hout); intros [= <- <-]; (split; [simpl; lia|]);
      [done|].
    intros e' [= <-]. destruct Hout as [Hcall _].
    exists (Nat.pred (api_calls w1)), t. split; [lia|done]. }
  assert (forall l w0 out0 w0',
            for_each (fun x => summarize E d x p dp m) l w0 = Some (out0, w0') ->
            (api_calls w0 <= api_calls w0')%nat /\
            forall e, out0 = Raised e ->
                      failed_request E p e (api_calls w0) (api_calls w0')) as Hfor.
  { induction l as [|x l IHl]; intros w0 out0 w0'; simpl.
    - intros [= <- <-]. split; [lia|done].
    - unfold bind, ret.
      destruct (summarize E d x p dp m w0) as [[[y|e] w1]|] eqn:Hx; [| |done].
      + destruct (IH _ _ _ _ Hx) as [Hle1 _].
        destruct (for_each _ l w1) as [[[ys|e] w2]|] eqn:Hl; [| |done].
        * destruct (IHl _ _ _ Hl) as [Hle2 _]. intros [= <- <-]. split; [lia|done].
        * destruct (IHl _ _ _ Hl) as [Hle2 Hr2]. intros [= <- <-]. split; [lia|].
          intros e' [= <-]. eapply failed_request_widen; [| |exact (Hr2 e eq_refl)]; lia.
      + destruct (IH _ _ _ _ Hx) as [Hle1 Hr1]. intros [= <- <-].
        split; [done|]. intros e' [= <-]. exact (Hr1 e eq_refl). }
  unfold bind.
  destruct (for_each _ _ w) as [[[ss|e] w1]|] eqn:Hl; [| |done].
  - destruct (Hfor _ _ _ _ Hl) as [Hle1 _].
    destruct (summarize E d _ p dp m w1) as [[[v|e] w2]|] eqn:Hj; [| |done].
    + destruct (IH _ _ _ _ Hj) as [Hle2 _]. intros [= <- <-]. split; [simpl; lia|done].
    + destruct (IH _ _ _ _ Hj) as [Hle2 Hr2]. intros [= <- <-]. split; [lia|].
      intros e' [= <-]. eapply failed_request_widen; [| |exact (Hr2 e eq_refl)]; lia.
  - destruct (Hfor _ _ _ _ Hl) as [Hle1 Hr1]. intros [= <- <-].
    split; [done|]. intros e' [= <-]. exact (Hr1 e eq_refl).
Qed.

(** X5: [summarize] has no error of its own.  Whatever it raises is the
    answer the provider gave to one of the summarization requests sent
    during the call, for some text and the target size of the call. *)
Theorem summarize_raises_only_provider_errors (E : Env) (depth : nat) (t : string)
    (p : SummarizationParameters) (dp m : string) (w w' : World) (e : PyExn) :
  summarize E depth t p dp m w = Some (Raised e, w') ->
  exists n text,
    (api_calls w <= n < api_calls w')%nat /\
    chat_completions_create E n model_name
      (summarization_prompt_messages E text (target_summary_size p)) = Failed e.
Proof.
  intros Hrun. destruct (summarize_requests _ _ _ _ _ _ _ _ _ Hrun) as [_ Hr].
  exact (Hr e eq_refl).
Qed.

Lemma raised_run {A} (r : option (Outcome A * World)) (e : PyExn) :
  raised r = Some e -> r = Some (Raised e, world_after r).
Proof. destruct r as [[[b|e'] w]|]; simpl; intros [= <-] || intros [=]; reflexivity. Qed.

Lemma summarize_raises_only_provider_errors_witness :
  let E := demo_env unreachable half in
  let e := mkExn APIConnectionError None in
  let run := summarize E 1 "A text to summarize." small_budget "." model_name
               initial_world in
  run = Some (Raised e, world_after run) /\
  exists n text,
    (api_calls initial_world <= n < api_calls (world_after run))%nat /\
    chat_completions_create E n model_name
      (summarization_prompt_messages E text (target_summary_size small_budget)) = Failed e.
Proof.
  intros E e run.
  assert (run = Some (Raised e, world_after run)) as Hrun
    by (apply raised_run; vm_compute; reflexivity).
  split; [exact Hrun|].
  exact (summarize_raises_only_provider_errors E 1 "A text to summarize." small_budget
           "." model_name initial_world (world_after run) e Hrun).
Defined.

(** ** [actual_tokens] is only written *)

Lemma add_tokens_comm k n w : add_tokens k (add_tokens n w) = add_tokens n (add_tokens k w).
Proof. unfold add_tokens. simpl. f_equal. lia. Qed.

Lemma gpt_summarize_loop_shift E k tries text target w :
  gpt_summarize_loop E tries text target (add_tokens k w) =
  ((gpt_summarize_loop E tries text target w).1,
   add_tokens k (gpt_summarize_loop E tries text target w).2).
Proof.
  remember (MAX_ATTEMPTS - tries)%nat as n eqn:Hn.
  revert tries w Hn. induction n as [|n IH]; intros tries w Hn;
    rewrite (gpt_summarize_loop_eq E tries text target (add_tokens k w)),
      (gpt_summarize_loop_eq E tries text target w); simpl;
    destruct (chat_completions_create E (api_calls w) model_name _) as [r|e]; simpl;
    try (by rewrite add_tokens_comm);
    (destruct (caught e); [|done]);
    (destruct (decide (MAX_ATTEMPTS <= S tries)%nat); [done|]);
    (destruct (flagged_no_retry e); [done|]).
  - lia.
  - change (back_off E (S tries) (count_call (add_tokens k w)))
      with (add_tokens k (back_off E (S tries) (count_call w))).
    apply (IH (S tries)). lia.
Qed.

Lemma for_each_shift {A B} (k : Z) (f : A -> Run B) (l : list A) :
  (forall x w, f x (add_tokens k w) = with_more_tokens k (f x w)) ->
  forall w, for_each f l (add_tokens k w) = with_more_tokens k (for_each f l w).
Proof.
  intros Hf. induction l as [|x l IH]; intros w; simpl; [done|].
  unfold bind, ret. rewrite Hf.
  destruct (f x w) as [[[y|e] w1]|]; simpl; [|done..].
  rewrite IH. by destruct (for_each f l w1) as [[[ys|e] w2]|].
Qed.

(** X6: [summarize] never reads [actual_tokens].  Started with [k] more in
    the counter, a call does exactly what it does otherwise (the same
    outcome, the same requests, the same store, or no end at the same
    depth) and ends with [k] more in the counter. *)
Theorem summarize_never_reads_actual_tokens (E : Env) (k : Z) (depth : nat) (t : string)
    (p : SummarizationParameters) (dp m : string) (w : World) :
  summarize E depth t p dp m (add_tokens k w)
  = with_more_tokens k (summarize E depth t p dp m w).
Proof.
  revert t w. induction depth as [|d IH]; intros t w; [done|].
  simpl. unfold Utilities.memoize_to_file.
  change (cache_json (add_tokens k w)) with (cache_json w).
  destruct (cache_json w !! SummarizeKey t p dp m); [done|].
  unfold summarize_body.
  destruct (token_count E t <=? target_summary_size p); [done|].
  destruct (token_count E t <=? summary_input_size p).
  { unfold bind, total, ret, gpt_summarize. rewrite gpt_summarize_loop_shift.
    by destruct (gpt_summarize_loop E 0 t (target_summary_size p) w) as [[v|e] w1]. }
  unfold bind.
  rewrite (for_each_shift k _ _ (fun x => IH x)).
  destruct (for_each _ _ w) as [[[ss|e] w1]|]; simpl; [|done..].
  rewrite IH.
  by destruct (summarize E d _ p dp m w1) as [[[v|e] w2]|].
Qed.

(** ** What [summarize] returns *)

Lemma store_shaped_put E t p dp m v w :
  store_shaped E w ->
  token_count E v <= target_summary_size p \/ wrapped v ->
  store_shaped E (cache_put (SummarizeKey t p dp m) v w).
Proof.
  intros Hs Hv t' p' d' m' v' Hk. simpl in Hk.
  destruct (decide (SummarizeKey t p dp m = SummarizeKey t' p' d' m')) as [Heq|Hne].
  - rewrite Heq, lookup_insert_eq in Hk. injection Heq as -> -> -> ->.
    by injection Hk as <-.
  - rewrite lookup_insert_ne in Hk by done. exact (Hs t' p' d' m' v' Hk).
Qed.

Lemma initial_world_store_shaped E : store_shaped E initial_world.
Proof. intros t p d m v Hk. simpl in Hk. by rewrite lookup_empty in Hk. Qed.

Lemma summarize_shape E depth t p dp m w out w' :
  store_shaped E w ->
  summarize E depth t p dp m w = Some (out, w') ->
  store_shaped E w' /\
  forall v, out = Returned v -> token_count E v <= target_summary_size p \/ wrapped v.
Proof.
  revert t w out w'. induction depth as [|d IH]; intros t w out w' Hs; [done|].
  simpl. unfold Utilities.memoize_to_file.
  destruct (cache_json w !! SummarizeKey t p dp m) as [v0|] eqn:Hk.
  { intros [= <- <-]. split; [done|]. intros v [= <-]. exact (Hs _ _ _ _ _ Hk). }
  unfold summarize_body.
  destruct (token_count E t <=? target_summary_size p) eqn:H1.
  { apply Z.leb_le in H1. intros [= <- <-].
    split; [apply store_shaped_put; [done|by left]|]. intros v [= <-]. by left. }
  destruct (token_count E t <=? summary_input_size p).
  { unfold bind, total, ret, gpt_summarize.
    pose proof (gpt_summarize_loop_accounting E 0 t (target_summary_size p) w) as Hacc.
    destruct (gpt_summarize_loop E 0 t (target_summary_size p) w) as [[v|e] w1];
      destruct Hacc as (Hc & _ & Hout); intros [= <- <-].
    - destruct Hout as (r & _ & -> & _).
      assert (wrapped ("[[[" +:+ content r +:+ "]]]")) as Hw by (by exists (content r)).
      split; [|intros v [= <-]; by right].
      apply store_shaped_put; [|by right].
      intros ? ? ? ? ? Hk'. rewrite Hc in Hk'. exact (Hs _ _ _ _ _ Hk').
    - split; [|done]. intros ? ? ? ? ? Hk'. rewrite Hc in Hk'. exact (Hs _ _ _ _ _ Hk'). }
  unfold bind.
  destruct (for_each _ _ w) as [[[ss|e] w1]|] eqn:Hl; [| |done].
  - assert (store_shaped E w1) as Hs1.
    { eapply (for_each_preserves (store_shaped E)); [|exact Hs|exact Hl].
      intros x w0 out0 w0' H0 Hx. exact (proj1 (IH _ _ _ _ H0 Hx)). }
    destruct (summarize E d _ p dp m w1) as [[[v|e] w2]|] eqn:Hj; intros [= <- <-].
    + destruct (IH _ _ _ _ Hs1 Hj) as [Hs2 Hv].
      split; [apply store_shaped_put; [done|by apply Hv]|].
      intros v' [= <-]. by apply Hv.
    + split; [|done]. exact (proj1 (IH _ _ _ _ Hs1 Hj)).
  - intros [= <- <-]. split; [|done].
    eapply (for_each_preserves (store_shaped E)); [|exact Hs|exact Hl].
    intros x w0 out0 w0' H0 Hx. exact (proj1 (IH _ _ _ _ H0 Hx)).
Qed.

(** X7: what [summarize] returns is within the target size or is a
    completion of the provider wrapped in the markers, which the code never
    measures against the target size.  This holds from every store whose
    [summarize] entries are of that kind (the empty store is one), and the
    call leaves such a store behind. *)
Theorem summarize_returns_short_or_wrapped (E : Env) (depth : nat) (t : string)
    (p : SummarizationParameters) (dp m : string) (w w' : World) (v : string) :
  store_shaped E w ->
  summarize E depth t p dp m w = Some (Returned v, w') ->
  (token_count E v <= target_summary_size p \/ exists c, v = "[[[" +:+ c +:+ "]]]") /\
  store_shaped E w'.
Proof.
  intros Hs Hrun. destruct (summarize_shape _ _ _ _ _ _ _ _ _ Hs Hrun) as [Hs' Hv].
  split; [exact (Hv v eq_refl)|exact Hs'].
Qed.

Lemma summarize_returns_short_or_wrapped_witness :
  let run := summarize stubborn_env 1 "A text to summarize." small_budget "." model_name
               initial_world in
  store_shaped stubborn_env initial_world /\
  run = Some (Returned wrapped_answer, world_after run) /\
  (token_count stubborn_env wrapped_answer <= target_summary_size small_budget \/
   exists c, wrapped_answer = "[[[" +:+ c +:+ "]]]") /\
  store_shaped stubborn_env (world_after run).
Proof.
  intros run.
  assert (run = Some (Returned wrapped_answer, world_after run)) as Hrun
    by (apply returned_run; vm_compute; reflexivity).
  split; [exact (initial_world_store_shaped stubborn_env)|]. split; [exact Hrun|].
  exact (summarize_returns_short_or_wrapped stubborn_env 1 "A text to summarize."
           small_budget "." model_name initial_world (world_after run) wrapped_answer
           (initial_world_store_shaped stubborn_env) Hrun).
Defined.

(** ** The markers after [str.replace] *)

Lemma length_repeated k c : String.length (repeated k c) = k.
Proof. induction k as [|k IH]; simpl; [done|by rewrite IH]. Qed.

Lemma leading_le_length c s : (leading c s <= String.length s)%nat.
Proof.
  induction s as [|a s IH]; simpl; [done|]. destruct (decide (a = c)); lia.
Qed.

Lemma prefix_repeated k c s :
  String.prefix (repeated k c) s = bool_decide (k <= leading c s)%nat.
Proof.
  revert s. induction k as [|k IH]; intros s.
  - rewrite bool_decide_eq_true_2 by lia. by destruct s.
  - destruct s as [|a s].
    + by rewrite bool_decide_eq_false_2 by (simpl; lia).
    + change (String.prefix (repeated (S k) c) (String a s))
        with (if Ascii.ascii_dec c a then String.prefix (repeated k c) s else false).
      change (leading c (String a s))
        with (if decide (a = c) then S (leading c s) else O).
      destruct (Ascii.ascii_dec c a) as [<-|Hne].
      * rewrite decide_True by done. rewrite IH.
        apply bool_decide_ext. lia.
      * rewrite decide_False by congruence.
        by rewrite bool_decide_eq_false_2 by lia.
Qed.

Lemma leading_drop k c s :
  (k <= leading c s)%nat ->
  leading c (Utilities.drop k s) = (leading c s - k)%nat.
Proof.
  revert s. induction k as [|k IH]; intros s Hk; simpl.
  - destruct s; simpl; lia.
  - destruct s as [|a s]; simpl in *; [lia|].
    destruct (decide (a = c)); [|lia]. apply IH. lia.
Qed.

Lemma contains_cons needle a s :
  contains needle (String a s) = String.prefix needle (String a s) || contains needle s.
Proof. reflexivity. Qed.

Lemma contains_empty_repeated k c :
  (1 <= k)%nat -> contains (repeated k c) EmptyString = false.
Proof. destruct k; [lia|done]. Qed.

(** Removing the occurrences of a run of [k] equal characters leaves less
    than [k] of them in front, keeps a shorter leading run as it is, and
    leaves no occurrence. *)
Lemma replace_loop_run k c steps s :
  (1 <= k)%nat ->
  (String.length s <= steps)%nat ->
  let r := replace_loop steps (repeated k c) EmptyString s in
  (leading c r < k)%nat /\
  ((leading c s < k)%nat -> leading c r = leading c s) /\
  contains (repeated k c) r = false.
Proof.
  intros Hk. revert s. induction steps as [|steps IH]; intros s Hlen.
  - destruct s as [|a s]; [|simpl in Hlen; lia].
    cbn [replace_loop leading]. repeat split; [lia|by apply contains_empty_repeated].
  - cbn [replace_loop]. rewrite prefix_repeated, length_repeated.
    destruct (bool_decide (k <= leading c s)%nat) eqn:Hpre.
    + apply bool_decide_eq_true in Hpre.
      pose proof (leading_le_length c s) as Hll.
      destruct (IH (Utilities.drop k s)) as (H1 & H2 & H3);
        [rewrite length_drop; lia|].
      change (EmptyString +:+ ?x) with x.
      repeat split; [done|lia|done].
    + apply bool_decide_eq_false in Hpre.
      destruct s as [|a s].
      * cbn [leading]. repeat split; [lia|by apply contains_empty_repeated].
      * simpl in Hlen. destruct (IH s) as (H1 & H2 & H3); [lia|].
        assert (leading c (String a (replace_loop steps (repeated k c) EmptyString s))
                = leading c (String a s)) as Hlead.
        { simpl in *. destruct (decide (a = c)); [|done]. rewrite H2; lia. }
        cbv zeta. rewrite Hlead.
        repeat split; [lia|].
        rewrite contains_cons, H3, prefix_repeated, Hlead, orb_false_r.
        apply bool_decide_eq_false. lia.
Qed.

Lemma replace_run_absent k c s :
  contains (repeated (S k) c) (replace (repeated (S k) c) EmptyString s) = false.
Proof.
  change (replace (repeated (S k) c) EmptyString s)
    with (replace_loop (String.length s) (repeated (S k) c) EmptyString s).
  apply (replace_loop_run (S k) c (String.length s) s); lia.
Qed.

(** X8: the two [replace] calls of the driver.  After the first, the text
    has no ["[[["]; after the second, it has no ["]]]"].  The second can
    bring the opening marker back: from ["[[]]]["] the driver keeps
    ["[[["]. *)
Theorem strip_markers_leaves_no_closing_marker (s : string) :
  contains "[[[" (replace "[[[" EmptyString s) = false /\
  contains "]]]" (strip_markers s) = false /\
  strip_markers "[[]]][" = "[[[".
Proof.
  split; [|split].
  - exact (replace_run_absent 2 "[" s).
  - exact (replace_run_absent 2 "]" (replace "[[[" EmptyString s)).
  - reflexivity.
Qed.

(** ** The loop over the target sizes *)

Lemma dict_set_new k v (summaries : list (Z * string)) :
  k ∉ map fst summaries -> dict_set k v summaries = (summaries ++ [(k, v)])%list.
Proof.
  induction summaries as [|[k' v'] rest IH]; intros Hk; simpl; [done|].
  simpl in Hk. apply not_elem_of_cons in Hk as [Hne Hk].
  rewrite decide_False by done. by rewrite IH.
Qed.

Lemma summarize_targets_cons E depth book target rest summaries w :
  summarize_targets E depth book (target :: rest) summaries w =
  match summarization_token_parameters E target 16000 with
  | Returned token_quantities =>
      match summarize E depth book token_quantities division_point model_name
              (mkWorld 0 (cache_json w) (api_calls w) (random_draws w) (slept w)) with
      | Some (Returned summary, w1) =>
          summarize_targets E depth book rest
            (dict_set target (strip_markers summary) summaries) w1
      | Some (Raised e, w1) => Some (Raised e, w1)
      | None => None
      end
  | Raised e =>
      Some (Raised e, mkWorld 0 (cache_json w) (api_calls w) (random_draws w) (slept w))
  end.
Proof. reflexivity. Qed.

Lemma summarize_targets_dict E depth book targets summaries w summaries' w' :
  NoDup (map fst summaries ++ targets) ->
  Forall (fun s => contains "]]]" s = false) (dict_values summaries) ->
  summarize_targets E depth book targets summaries w = Some (Returned summaries', w') ->
  map fst summaries' = (map fst summaries ++ targets)%list /\
  Forall (fun s => contains "]]]" s = false) (dict_values summaries').
Proof.
  revert summaries w. induction targets as [|target rest IH]; intros summaries w Hnd Hall.
  - intros [= <- <-]. by rewrite app_nil_r.
  - rewrite summarize_targets_cons.
    destruct (summarization_token_parameters E target 16000) as [p|e]; [|done].
    destruct (summarize E depth book p division_point model_name _)
      as [[[summary|e] w1]|]; [|done..].
    assert (target ∉ map fst summaries) as Hnew.
    { apply NoDup_app in Hnd as (_ & Hd & _). intros Hin.
      apply (Hd _ Hin). left. }
    rewrite (dict_set_new _ _ _ Hnew). intros Hrun.
    apply IH in Hrun as [Hkeys Hvals].
    + split; [|done]. rewrite Hkeys, map_app. simpl. by rewrite <- app_assoc.
    + rewrite map_app. simpl. by rewrite <- app_assoc.
    + unfold dict_values in *. rewrite map_app. apply Forall_app. split; [done|].
      simpl. constructor; [|done].
      exact (replace_run_absent 2 "]" (replace "[[[" EmptyString summary)).
Qed.

(** X9: when the loop over the target sizes finishes, the dict holds one
    summary for each of 500, 750 and 1000, in this order, and none of the
    summaries handed on to [synthesize_summaries] contains ["]]]"]. *)
Theorem summarize_targets_gives_three_summaries (E : Env) (depth : nat) (book : string)
    (w w' : World) (summaries : list (Z * string)) :
  summarize_targets E depth book target_summary_sizes [] w = Some (Returned summaries, w') ->
  map fst summaries = [500; 750; 1000] /\
  length (dict_values summaries) = 3%nat /\
  Forall (fun s => contains "]]]" s = false) (dict_values summaries).
Proof.
  intros Hrun.
  apply summarize_targets_dict in Hrun as [Hkeys Hvals].
  - split; [done|]. split; [|done].
    unfold dict_values. rewrite length_map, <- (length_map fst), Hkeys. done.
  - simpl. unfold target_summary_sizes. repeat (constructor; [rewrite ?elem_of_cons, elem_of_nil; lia|]). constructor.
  - constructor.
Qed.

Lemma summarize_targets_gives_three_summaries_witness :
  let run := summarize_targets helpful_env 1 "Short." target_summary_sizes []
               initial_world in
  let summaries := [(500, "Short."); (750, "Short."); (1000, "Short.")] in
  run = Some (Returned summaries, world_after run) /\
  map fst summaries = [500; 750; 1000] /\
  length (dict_values summaries) = 3%nat /\
  Forall (fun s => contains "]]]" s = false) (dict_values summaries).
Proof.
  intros run summaries.
  assert (run = Some (Returned summaries, world_after run)) as Hrun
    by (apply returned_run; vm_compute; reflexivity).
  split; [exact Hrun|].
  exact (summarize_targets_gives_three_summaries helpful_env 1 "Short." initial_world
           (world_after run) summaries Hrun).
Defined.

(** ** Further properties of [synthesize_summaries] *)

Lemma synthesize_summaries_effects (E : Env) (summaries : list string)
    (model : string) (w : World) :
  exists out w',
    synthesize_summaries E summaries model w = Some (out, w') /\
    actual_tokens w' = actual_tokens w /\
    random_draws w' = random_draws w /\
    slept w' = slept w /\
    (api_calls w <= api_calls w' <= S (api_calls w))%nat /\
    (forall e, out = Raised e -> cache_json w' = cache_json w).
Proof.
  unfold synthesize_summaries, Utilities.memoize_to_file, total, synthesize_summaries_body.
  destruct (cache_json w !! SynthesizeKey summaries model).
  { eexists _, _. split; [done|]. repeat split; lia || done. }
  destruct (num_tokens_from_messages E _ model_name <=? 8192).
  - destruct (chat_completions_create E (api_calls w) model _) as [r|e];
      eexists _, _; (split; [done|]); simpl; repeat split; lia || done.
  - eexists _, _. split; [done|]. repeat split; lia || done.
Qed.

(** X10: [synthesize_summaries] always finishes, sends at most one request
    and never retries: no number is drawn and no sleep is taken.  The usage
    of its request is not added to [actual_tokens], and when it raises the
    store is left as it was. *)
Theorem synthesize_summaries_counts_no_usage (E : Env) (summaries : list string)
    (model : string) (w : World) :
  exists out w',
    synthesize_summaries E summaries model w = Some (out, w') /\
    actual_tokens w' = actual_tokens w /\
    random_draws w' = random_draws w /\
    slept w' = slept w /\
    (api_calls w <= api_calls w' <= S (api_calls w))%nat /\
    (forall e, out = Raised e -> cache_json w' = cache_json w).
Proof. exact (synthesize_summaries_effects E summaries model w). Qed.

Lemma append_assoc (a b c : string) : (a +:+ b) +:+ c = a +:+ (b +:+ c).
Proof.
  induction a as [|x a IH]; [done|].
  change (String x ((a +:+ b) +:+ c) = String x (a +:+ (b +:+ c))). by rewrite IH.
Qed.

Lemma number_summaries_from i summaries joined :
  number_summaries i summaries joined =
  joined +:+ String.concat EmptyString (imap (fun j => summary_line (i + j)) summaries).
Proof.
  revert i joined. induction summaries as [|s rest IH]; intros i joined.
  - simpl. by rewrite append_empty_r.
  - cbn [number_summaries imap]. rewrite IH.
    rewrite Nat.add_0_r.
    assert (String.concat EmptyString
              (summary_line i s :: imap ((fun j => summary_line (i + j)) ∘ S) rest)
            = summary_line i s
              +:+ String.concat EmptyString (imap (fun j => summary_line (S i + j)) rest))
      as ->.
    { assert (imap ((fun j => summary_line (i + j)) ∘ S) rest
              = imap (fun j => summary_line (S i + j)) rest) as ->.
      { apply imap_ext. intros j x _. simpl. f_equal. lia. }
      destruct (imap (fun j => summary_line (S i + j)) rest) eqn:Hr; simpl; [|done].
      by rewrite append_empty_r. }
    unfold summary_line. by rewrite !append_assoc.
Qed.

(** X11: the loop that builds [summaries_joined] numbers the summaries from
    1 in the order of the list: the text is the concatenation of the lines
    ["Summary i: " + summary + "\n\n"], and nothing else. *)
Theorem number_summaries_lists_in_order (summaries : list string) :
  number_summaries 0 summaries EmptyString =
  String.concat EmptyString (imap summary_line summaries).
Proof. exact (number_summaries_from 0 summaries EmptyString). Qed.

(** ** Success after retries *)

Lemma after_retries_effects E k tries w :
  cache_json (after_retries E k tries w) = cache_json w /\
  actual_tokens (after_retries E k tries w) = actual_tokens w /\
  api_calls (after_retries E k tries w) = (api_calls w + k)%nat /\
  random_draws (after_retries E k tries w) = (random_draws w + k)%nat /\
  length (slept (after_retries E k tries w)) = (length (slept w) + k)%nat.
Proof.
  revert tries w. induction k as [|k IH]; intros tries w; simpl.
  - repeat split; lia.
  - destruct (IH (S tries) (back_off E (S tries) (count_call w)))
      as (H1 & H2 & H3 & H4 & H5).
    rewrite H1, H2, H3, H4, H5. simpl. repeat split; lia.
Qed.

Lemma gpt_summarize_loop_after_retries E k tries text target w r :
  (tries + k < MAX_ATTEMPTS)%nat ->
  fails_transiently E text target k w ->
  chat_completions_create E (api_calls w + k) model_name
    (summarization_prompt_messages E text target) = Completed r ->
  gpt_summarize_loop E tries text target w =
  (Returned ("[[[" +:+ content r +:+ "]]]"),
   add_tokens (total_tokens r) (count_call (after_retries E k tries w))).
Proof.
  revert tries w. induction k as [|k IH]; intros tries w Hlt Hfail Hok.
  - rewrite Nat.add_0_r in Hok. by rewrite gpt_summarize_loop_eq, Hok.
  - destruct (Hfail 0%nat) as (e & Hcall & He); [lia|].
    rewrite Nat.add_0_r in Hcall.
    rewrite (gpt_summarize_loop_retry E tries text target w e Hcall He) by lia.
    apply IH; [lia| |].
    + intros i Hi. destruct (Hfail (S i)) as (e' & Hcall' & He'); [lia|].
      exists e'. split; [|done]. simpl. by rewrite <- Nat.add_succ_r.
    + simpl. by rewrite <- Nat.add_succ_r.
Qed.

(** X12: when the first [k] requests of an invocation fail with errors that
    are retried, with [k] below [MAX_ATTEMPTS], and the next request
    completes, [gpt_summarize] returns that completion between the markers.
    It has sent [k + 1] requests, drawn [k] numbers and slept [k] times,
    and [actual_tokens] has grown by the usage of the completion alone. *)
Theorem gpt_summarize_succeeds_after_retries (E : Env) (k : nat) (text : string)
    (target : Z) (w : World) (r : ChatCompletion) :
  (k < MAX_ATTEMPTS)%nat ->
  fails_transiently E text target k w ->
  chat_completions_create E (api_calls w + k) model_name
    (summarization_prompt_messages E text target) = Completed r ->
  let w' := (gpt_summarize E text target w).2 in
  (gpt_summarize E text target w).1 = Returned ("[[[" +:+ content r +:+ "]]]") /\
  api_calls w' = (api_calls w + k + 1)%nat /\
  random_draws w' = (random_draws w + k)%nat /\
  length (slept w') = (length (slept w) + k)%nat /\
  actual_tokens w' = actual_tokens w + total_tokens r /\
  cache_json w' = cache_json w.
Proof.
  intros Hk Hfail Hok. unfold gpt_summarize.
  rewrite (gpt_summarize_loop_after_retries E k 0 text target w r Hk Hfail Hok).
  destruct (after_retries_effects E k 0 w) as (H1 & H2 & H3 & H4 & H5).
  simpl. rewrite H1, H2, H3, H4, H5. repeat split; lia.
Qed.

Lemma gpt_summarize_succeeds_after_retries_witness :
  let E := demo_env (rate_limited 2 "A summary.") half in
  let text := "A text to summarize." in
  let r := mkCompletion "A summary." 7 in
  let w' := (gpt_summarize E text 10 initial_world).2 in
  (2 < MAX_ATTEMPTS)%nat /\
  fails_transiently E text 10 2 initial_world /\
  chat_completions_create E (api_calls initial_world + 2) model_name
    (summarization_prompt_messages E text 10) = Completed r /\
  (gpt_summarize E text 10 initial_world).1 = Returned ("[[[" +:+ content r +:+ "]]]") /\
  api_calls w' = (api_calls initial_world + 2 + 1)%nat /\
  random_draws w' = (random_draws initial_world + 2)%nat /\
  length (slept w') = (length (slept initial_world) + 2)%nat /\
  actual_tokens w' = actual_tokens initial_world + total_tokens r /\
  cache_json w' = cache_json initial_world.
Proof.
  intros E text r w'.
  assert (2 < MAX_ATTEMPTS)%nat as Hk by (unfold MAX_ATTEMPTS; lia).
  assert (fails_transiently E text 10 2 initial_world) as Hfail.
  { intros i Hi. exists (mkExn RateLimitError None).
    destruct i as [|[|i]]; [by split|by split|lia]. }
  assert (chat_completions_create E (api_calls initial_world + 2) model_name
            (summarization_prompt_messages E text 10) = Completed r) as Hok
    by reflexivity.
  split; [exact Hk|]. split; [exact Hfail|]. split; [exact Hok|].
  exact (gpt_summarize_succeeds_after_retries E 2 text 10 initial_world r Hk Hfail Hok).
Defined.

(** ** Unwrapping a completion *)

Lemma replace_loop_absent old new steps s :
  contains old s = false ->
  replace_loop steps old new s = s.
Proof.
  revert s. induction steps as [|steps IH]; intros s Hs; [done|].
  cbn [replace_loop]. destruct s as [|a s].
  - unfold contains in Hs. apply orb_false_iff in Hs as [-> _]. done.
  - rewrite contains_cons in Hs. apply orb_false_iff in Hs as [-> Hs].
    by rewrite (IH s Hs).
Qed.

Lemma leading_repeated k c : leading c (repeated k c) = k.
Proof.
  induction k as [|k IH]; [done|].
  cbn [repeated leading]. rewrite decide_True by done. by rewrite IH.
Qed.

Lemma leading_append c x y :
  leading c (x +:+ y) = leading c x \/ x = repeated (String.length x) c.
Proof.
  induction x as [|a x IH]; [by right|].
  change (String a x +:+ y) with (String a (x +:+ y)). cbn [leading String.length repeated].
  destruct (decide (a = c)) as [->|Hne]; [|by left].
  destruct IH as [->|<-]; [by left|by right].
Qed.

Lemma leading_append_stop c x y :
  leading c y = 0%nat -> leading c (x +:+ y) = leading c x.
Proof.
  intros Hy. induction x as [|a x IH]; [done|].
  change (String a x +:+ y) with (String a (x +:+ y)). cbn [leading].
  by rewrite IH.
Qed.

Lemma repeated_append j k c : repeated j c +:+ repeated k c = repeated (j + k) c.
Proof.
  induction j as [|j IH]; [done|].
  change (String c (repeated j c +:+ repeated k c) = String c (repeated (j + k) c)).
  by rewrite IH.
Qed.

Lemma drop_repeated k j c : Utilities.drop k (repeated (k + j) c) = repeated j c.
Proof. induction k as [|k IH]; [by destruct j|exact IH]. Qed.

Lemma contains_repeated_lt j k c :
  contains (repeated k c) (repeated j c) = false -> (j < k)%nat.
Proof.
  intros Hc. destruct j as [|j].
  - destruct k; [done|lia].
  - cbn [repeated] in Hc. rewrite contains_cons in Hc.
    apply orb_false_iff in Hc as [Hp _].
    change (String c (repeated j c)) with (repeated (S j) c) in Hp.
    rewrite prefix_repeated, leading_repeated in Hp.
    apply bool_decide_eq_false in Hp. lia.
Qed.

Lemma contains_append_stop k c x y :
  contains (repeated k c) x = false ->
  contains (repeated k c) y = false ->
  leading c y = 0%nat ->
  contains (repeated k c) (x +:+ y) = false.
Proof.
  intros Hx Hy Hl. induction x as [|a x IH]; [done|].
  rewrite contains_cons in Hx. apply orb_false_iff in Hx as [Hp Hx].
  change (String a x +:+ y) with (String a (x +:+ y)).
  rewrite contains_cons, (IH Hx), orb_false_r.
  change (String a (x +:+ y)) with (String a x +:+ y).
  rewrite prefix_repeated in *. by rewrite leading_append_stop.
Qed.

(** A text that ends with the run and has no other occurrence of it loses
    exactly that run. *)
Lemma replace_loop_suffix k c steps x :
  (1 <= k)%nat ->
  contains (repeated k c) x = false ->
  (String.length x + k <= steps)%nat ->
  replace_loop steps (repeated k c) EmptyString (x +:+ repeated k c) = x.
Proof.
  intros Hk. revert x. induction steps as [|steps IH]; intros x Hx Hlen; [lia|].
  cbn [replace_loop]. rewrite prefix_repeated, length_repeated.
  destruct (bool_decide (k <= leading c (x +:+ repeated k c))%nat) eqn:Hpre.
  - apply bool_decide_eq_true in Hpre.
    change (EmptyString +:+ ?z) with z.
    destruct (leading_append c x (repeated k c)) as [Heq|Hall].
    + rewrite Heq in Hpre.
      destruct x as [|a x].
      * simpl in Hpre. lia.
      * rewrite contains_cons, prefix_repeated in Hx.
        apply orb_false_iff in Hx as [Hp _].
        apply bool_decide_eq_false in Hp. lia.
    + pose proof Hx as Hj. rewrite Hall in Hj. apply contains_repeated_lt in Hj.
      rewrite Hall at 1. rewrite repeated_append.
      replace (String.length x + k)%nat with (k + String.length x)%nat by lia.
      rewrite drop_repeated, <- Hall.
      by apply replace_loop_absent.
  - apply bool_decide_eq_false in Hpre.
    destruct x as [|a x].
    + change (EmptyString +:+ repeated k c) with (repeated k c) in Hpre.
      rewrite leading_repeated in Hpre. lia.
    + change (String a x +:+ repeated k c) with (String a (x +:+ repeated k c)).
      rewrite contains_cons in Hx. apply orb_false_iff in Hx as [_ Hx].
      simpl in Hlen. rewrite (IH x Hx) by lia. done.
Qed.

Lemma replace_after_opening_marker y :
  replace "[[[" EmptyString ("[[[" +:+ y)
  = replace_loop (2 + String.length y) "[[[" EmptyString y.
Proof. by destruct y. Qed.

(** X13: the driver undoes the wrapping of [gpt_summarize].  For a
    completion that contains neither marker, removing the markers from
    ["[[[" + completion + "]]]"] gives the completion back, and a text
    without markers passes through unchanged. *)
Theorem strip_markers_unwraps_completion (c : string) :
  contains "[[[" c = false ->
  contains "]]]" c = false ->
  strip_markers ("[[[" +:+ c +:+ "]]]") = c /\ strip_markers c = c.
Proof.
  intros Hopen Hclose. split.
  - unfold strip_markers.
    assert (replace "[[[" EmptyString ("[[[" +:+ c +:+ "]]]") = c +:+ "]]]") as ->.
    { rewrite replace_after_opening_marker. apply replace_loop_absent.
      exact (contains_append_stop 3 "[" c "]]]" Hopen eq_refl eq_refl). }
    change (replace "]]]" EmptyString (c +:+ "]]]"))
      with (replace_loop (String.length (c +:+ "]]]")) (repeated 3 "]") EmptyString
              (c +:+ repeated 3 "]")).
    apply replace_loop_suffix; [lia|done|].
    rewrite length_append. simpl. lia.
  - unfold strip_markers.
    assert (replace "[[[" EmptyString c = c) as ->.
    { change (replace "[[[" EmptyString c)
        with (replace_loop (String.length c) "[[[" EmptyString c).
      by apply replace_loop_absent. }
    change (replace "]]]" EmptyString c)
      with (replace_loop (String.length c) "]]]" EmptyString c).
    by apply replace_loop_absent.
Qed.

Lemma strip_markers_unwraps_completion_witness :
  contains "[[[" "A summary with [brackets]." = false /\
  contains "]]]" "A summary with [brackets]." = false /\
  strip_markers ("[[[" +:+ "A summary with [brackets]." +:+ "]]]")
    = "A summary with [brackets]." /\
  strip_markers "A summary with [brackets]." = "A summary with [brackets].".
Proof.
  assert (contains "[[[" "A summary with [brackets]." = false) as Hopen by reflexivity.
  assert (contains "]]]" "A summary with [brackets]." = false) as Hclose by reflexivity.
  split; [exact Hopen|]. split; [exact Hclose|].
  exact (strip_markers_unwraps_completion "A summary with [brackets]." Hopen Hclose).
Defined.

(** ** A section that is the text itself *)

(** X14: when the first section the splitter returns for an oversized text
    is that text itself, a call of [summarize] on it that is not in the
    store never finishes: the call for the first section is the same call
    again, in the same world. *)
Theorem summarize_never_finishes_on_unsplit_text (E : Env) (t : string)
    (p : SummarizationParameters) (dp m : string) (w : World) (rest : list string) :
  target_summary_size p < token_count E t ->
  summary_input_size p < token_count E t ->
  cache_json w !! SummarizeKey t p dp m = None ->
  splitter E t (summary_input_size p) dp m = t :: rest ->
  diverges (fun depth => summarize E depth t p dp m) w.
Proof.
  intros H1 H2 Hk Hsplit depth. induction depth as [|d IH]; [done|].
  rewrite summarize_eq, (memoize_to_file_miss _ _ _ Hk).
  unfold summarize_body.
  destruct (token_count E t <=? target_summary_size p) eqn:Hb1;
    [apply Z.leb_le in Hb1; lia|].
  destruct (token_count E t <=? summary_input_size p) eqn:Hb2;
    [apply Z.leb_le in Hb2; lia|].
  rewrite Hsplit. simpl. unfold bind. by rewrite IH.
Qed.

Lemma summarize_never_finishes_on_unsplit_text_witness :
  let t := "A text to summarize." in
  let p := mkParams 5 10 in
  target_summary_size p < token_count unsplit_env t /\
  summary_input_size p < token_count unsplit_env t /\
  cache_json initial_world !! SummarizeKey t p "." model_name = None /\
  splitter unsplit_env t (summary_input_size p) "." model_name = t :: [] /\
  diverges (fun depth => summarize unsplit_env depth t p "." model_name) initial_world.
Proof.
  intros t p.
  assert (target_summary_size p < token_count unsplit_env t) as H1
    by (vm_compute; reflexivity).
  assert (summary_input_size p < token_count unsplit_env t) as H2
    by (vm_compute; reflexivity).
  assert (cache_json initial_world !! SummarizeKey t p "." model_name = None) as Hk
    by apply lookup_empty.
  assert (splitter unsplit_env t (summary_input_size p) "." model_name = t :: []) as Hs
    by reflexivity.
  split; [exact H1|]. split; [exact H2|]. split; [exact Hk|]. split; [exact Hs|].
  exact (summarize_never_finishes_on_unsplit_text unsplit_env t p "." model_name
           initial_world [] H1 H2 Hk Hs).
Defined.

(** ** The end of the script *)

(** X15: the last lines of the script.  [synthesize_summaries] is called
    only when [summarize] has returned for each of the three target sizes,
    with the three summaries in the order 500, 750, 1000 and gpt-4 as the
    model; it adds at most one request and leaves [actual_tokens] as the
    last call of [summarize] left it.  When a call of [summarize] raises,
    the script ends with that exception in the world of that call. *)
Theorem script_synthesizes_after_three_summaries (E : Env) (depth : nat) (book : string)
    (w w' : World) (out : Outcome string) :
  script E depth book w = Some (out, w') ->
  (exists summaries w1,
     summarize_targets E depth book target_summary_sizes [] w
       = Some (Returned summaries, w1) /\
     map fst summaries = [500; 750; 1000] /\
     synthesize_summaries E (dict_values summaries) "gpt-4" w1 = Some (out, w') /\
     (api_calls w1 <= api_calls w' <= S (api_calls w1))%nat /\
     actual_tokens w' = actual_tokens w1) \/
  (exists e,
     out = Raised e /\
     summarize_targets E depth book target_summary_sizes [] w = Some (Raised e, w')).
Proof.
  unfold script, bind.
  destruct (summarize_targets E depth book target_summary_sizes [] w)
    as [[[summaries|e] w1]|] eqn:Hloop; [| |done].
  - intros Hsyn. left. exists summaries, w1.
    destruct (summarize_targets_dict E depth book target_summary_sizes [] w summaries w1)
      as [Hkeys _]; [| |exact Hloop|].
    { simpl. unfold target_summary_sizes.
      repeat (constructor; [rewrite ?elem_of_cons, elem_of_nil; lia|]). constructor. }
    { constructor. }
    destruct (synthesize_summaries_effects E (dict_values summaries) "gpt-4" w1)
      as (out' & w2 & Hrun & Ht & _ & _ & Hn & _).
    rewrite Hrun in Hsyn. injection Hsyn as <- <-.
    repeat split; done || lia.
  - intros [= <- <-]. right. by exists e.
Qed.

Lemma script_synthesizes_after_three_summaries_witness :
  let run := script helpful_env 1 "Short." initial_world in
  run = Some (Returned "A summary.", world_after run) /\
  ((exists summaries w1,
      summarize_targets helpful_env 1 "Short." target_summary_sizes [] initial_world
        = Some (Returned summaries, w1) /\
      map fst summaries = [500; 750; 1000] /\
      synthesize_summaries helpful_env (dict_values summaries) "gpt-4" w1
        = Some (Returned "A summary.", world_after run) /\
      (api_calls w1 <= api_calls (world_after run) <= S (api_calls w1))%nat /\
      actual_tokens (world_after run) = actual_tokens w1) \/
   (exists e,
      Returned "A summary." = Raised e /\
      summarize_targets helpful_env 1 "Short." target_summary_sizes [] initial_world
        = Some (Raised e, world_after run))).
Proof.
  intros run.
  assert (run = Some (Returned "A summary.", world_after run)) as Hrun
    by (apply returned_run; vm_compute; reflexivity).
  split; [exact Hrun|].
  exact (script_synthesizes_after_three_summaries helpful_env 1 "Short." initial_world
           (world_after run) (Returned "A summary.") Hrun).
Defined.
